(** * gitops-squared: resource versioning and catalog aggregation

    A shallow embedding of the Go program
    (internal/oci/client.go, internal/api/catalog.go, the HTTP handlers
    and internal/model/resource.go) together with the properties of its
    registry round trip, tombstones, catalog archive and restore
    procedure.

    Layout:
    - [gostrings], [gotime]: the few functions of Go's standard library the
      program calls ([strings.HasPrefix], [strings.SplitN], [time.Format] ...);
    - the OCI registry as the program sees it through oras-go: repositories,
      tags, manifests, a clock and an oracle that says which library calls
      fail;
    - [model], [oci], [api]: the three packages of the program;
    - the properties. *)

From stdpp Require Import base option list strings gmap pretty sorting.
From Stdlib Require Import ZArith Lia Ascii String.

Open Scope string_scope.
Open Scope list_scope.
Open Scope Z_scope.

(** Go byte slices and Go strings are both byte sequences. *)
Abbreviation bytes := string.

(** The line feed, written ["\n"] in Go. *)
Definition newline : string := String "010"%char EmptyString.

(* ===================================================================== *)
(** ** Go's [strings] package, for the one-byte separators the program uses *)
(* ===================================================================== *)

Module gostrings.

(** [stripPrefix p s] is [Some rest] when [s = p ++ rest]. *)
Fixpoint stripPrefix (p s : string) : option string :=
  match p, s with
  | EmptyString, _ => Some s
  | String a p', String b s' =>
      if Ascii.eqb a b then stripPrefix p' s' else None
  | String _ _, EmptyString => None
  end.

(** [strings.HasPrefix(s, prefix)] *)
Definition HasPrefix (s prefix : string) : bool :=
  match stripPrefix prefix s with Some _ => true | None => false end.

(** [strings.TrimPrefix(s, prefix)]: [s] itself when the prefix is absent. *)
Definition TrimPrefix (s prefix : string) : string :=
  match stripPrefix prefix s with Some rest => rest | None => s end.

(** [strings.Cut(s, sep)] for a one-byte separator: the text before and
    after the first occurrence of [sep]. *)
Fixpoint Cut (s : string) (sep : ascii) : option (string * string) :=
  match s with
  | EmptyString => None
  | String a s' =>
      if Ascii.eqb a sep then Some (EmptyString, s')
      else match Cut s' sep with
           | Some (before, after) => Some (String a before, after)
           | None => None
           end
  end.

(** [strings.SplitN(s, sep, 2)] for a one-byte separator: at most two
    parts, the second one holding everything after the first separator. *)
Definition SplitN2 (s : string) (sep : ascii) : list string :=
  match Cut s sep with
  | Some (before, after) => [before; after]
  | None => [s]
  end.

(** [strings.ReplaceAll(s, old, new)] for one-byte [old] and [new]. *)
Fixpoint ReplaceAll (s : string) (old new : ascii) : string :=
  match s with
  | EmptyString => EmptyString
  | String a s' =>
      String (if Ascii.eqb a old then new else a) (ReplaceAll s' old new)
  end.

(** [strings.Count(s, sep)] for a one-byte separator; the properties use
    it to say where separators occur. *)
Fixpoint Count (s : string) (sep : ascii) : nat :=
  match s with
  | EmptyString => 0%nat
  | String a s' => ((if Ascii.eqb a sep then 1 else 0) + Count s' sep)%nat
  end.

End gostrings.

(* ===================================================================== *)
(** ** Go's [time] package: Unix seconds and their RFC 3339 rendering *)
(* ===================================================================== *)

Module gotime.

(** Decimal rendering padded with zeros to [width] digits ([%0Nd]). *)
Fixpoint pad (width : nat) (s : string) : string :=
  match width with
  | O => s
  | S w => if (String.length s <? width)%nat then pad w ("0" +:+ s) else s
  end.

Definition digits (width : nat) (n : Z) : string := pad width (pretty n).

(** Year, month and day of the proleptic Gregorian calendar for a count of
    days since 1970-01-01. *)
Definition civil (days : Z) : Z * Z * Z :=
  let z := days + 719468 in
  let era := z / 146097 in
  let doe := z - era * 146097 in
  let yoe := (doe - doe / 1460 + doe / 36524 - doe / 146096) / 365 in
  let doy := doe - (365 * yoe + yoe / 4 - yoe / 100) in
  let mp := (5 * doy + 2) / 153 in
  let d := doy - (153 * mp + 2) / 5 + 1 in
  let m := if mp <? 10 then mp + 3 else mp - 9 in
  let y := yoe + era * 400 + (if m <=? 2 then 1 else 0) in
  (y, m, d).

(** [time.Unix(sec, 0).UTC().Format(time.RFC3339)], for instants whose year
    has four digits. *)
Definition FormatRFC3339 (sec : Z) : string :=
  let '(y, m, d) := civil (sec / 86400) in
  let s := sec mod 86400 in
  digits 4 y +:+ "-" +:+ digits 2 m +:+ "-" +:+ digits 2 d +:+ "T" +:+
  digits 2 (s / 3600) +:+ ":" +:+ digits 2 ((s mod 3600) / 60) +:+ ":" +:+
  digits 2 (s mod 60) +:+ "Z".

End gotime.

(* ===================================================================== *)
(** ** The OCI registry, as the program reaches it through oras-go *)
(* ===================================================================== *)

(** [ocispec.Descriptor] together with the blob it names. *)
Record Descriptor := {
  mediaType : string;
  data : bytes;
  annotations : gmap string string;
}.

(** [ocispec.Manifest]: what a tag of a repository resolves to. *)
Record Manifest := {
  artifactType : string;
  config : Descriptor;
  layers : list Descriptor;
  manifestAnnotations : gmap string string;
}.

(** The registry is content addressed: the digest of a manifest stands for
    its content, and two manifests have one digest exactly when they are
    the same manifest. *)
Inductive digest := DigestOf (m : Manifest).

(** The calls into oras-go that travel to the registry or validate a
    reference, and so may return an error. *)
Inductive Call :=
  | NewRepository (ref : string)
  | NewRegistry (host : string)
  | Repositories (host : string)
  | Copy (repoPath tag : string)
  | Tag (repoPath tag : string)
  | FetchReference (repoPath reference : string)
  | Fetch (repoPath : string).

(** Everything outside the process: the repositories of the registry (each
    one a map from tags to manifests), which library calls currently fail,
    the successive readings of the wall clock in Unix seconds, and the order
    in which the Go runtime walks the next map. *)
Record World := {
  repositories : gmap string (gmap string Manifest);
  fails : Call → bool;
  clock : nat → Z;
  ticks : nat;
  rangeSeed : nat;
}.

Definition setRepositories (rs : gmap string (gmap string Manifest)) (w : World) : World :=
  {| repositories := rs; fails := fails w; clock := clock w;
     ticks := ticks w; rangeSeed := rangeSeed w |}.

Definition setTicks (n : nat) (w : World) : World :=
  {| repositories := repositories w; fails := fails w; clock := clock w;
     ticks := n; rangeSeed := rangeSeed w |}.

(** The tags of one repository; a repository that does not exist has none. *)
Definition tagsOf (w : World) (repoPath : string) : gmap string Manifest :=
  default ∅ (repositories w !! repoPath).

(** Point [tag] of [repoPath] at manifest [m], creating the repository when
    it does not exist yet. *)
Definition putTag (repoPath tag : string) (m : Manifest) (w : World) : World :=
  setRepositories (<[repoPath := <[tag := m]> (tagsOf w repoPath)]> (repositories w)) w.

(** Go's [for k, v := range m]: every entry once, in an order the runtime
    picks. *)
Definition rangeOrder {V : Type} (seed : nat) (m : gmap string V) : list (string * V) :=
  let l := map_to_list m in
  default l (permutations l !! seed).

(** *** Errors and the state-and-error monad of the embedding *)

Inductive Invalid := NameRequired | InvalidType | InvalidSize | ReplicasRange.

Inductive Error :=
  | CallFailed (c : Call)
  | TagNotFound (repoPath reference : string)
  | NoLayers
  | MarshalFailed
  | TarHeaderFailed (name : string)
  | ValidationFailed (why : Invalid).

Inductive Result (A : Type) :=
  | Ok (a : A)
  | Err (e : Error).
Arguments Ok {A} a.
Arguments Err {A} e.

(** A computation over state [S] that returns a value or an error; the
    state reached so far is kept when it fails, as the effects of a Go
    function that returns [err] are. *)
Definition M (S A : Type) : Type := S → Result A * S.

Definition ret {S A} (a : A) : M S A := λ s, (Ok a, s).
Definition throw {S A} (e : Error) : M S A := λ s, (Err e, s).
Definition bind {S A B} (m : M S A) (k : A → M S B) : M S B :=
  λ s, match m s with
       | (Ok a, s') => k a s'
       | (Err e, s') => (Err e, s')
       end.
Definition get {S} : M S S := λ s, (Ok s, s).
Definition modify {S} (f : S → S) : M S unit := λ s, (Ok tt, f s).

Declare Scope go_scope.
Delimit Scope go_scope with go.
Notation "x <- m ;; k" := (bind m (λ x, k))
  (at level 100, m at next level, right associativity) : go_scope.
Notation "m ;;; k" := (bind m (λ _, k))
  (at level 100, right associativity) : go_scope.
Open Scope go_scope.

(** A library call that fails when the oracle says so. *)
Definition call (c : Call) : M World unit :=
  λ w, if fails w c then (Err (CallFailed c), w) else (Ok tt, w).

(** [time.Now().Unix()]: the next reading of the clock. *)
Definition timeNow : M World Z :=
  λ w, (Ok (clock w (ticks w)), setTicks (S (ticks w)) w).

(** Run [m] and hand its outcome to the caller, who inspects [err] and goes
    on, as in [x, err := f(); if err != nil { ... }]. *)
Definition attempt {S A} (m : M S A) : M S (Result A) :=
  λ s, let (r, s') := m s in (Ok r, s').

(** A Go map of strings read at a missing key gives the empty string. *)
Definition goIndex (m : gmap string string) (k : string) : string := default "" (m !! k).

(** Whether a computation returned without error. *)
Definition succeeded {A S} (r : Result A * S) : bool :=
  match r with (Ok _, _) => true | (Err _, _) => false end.

(** The value a computation returned, or [d] after an error. *)
Definition valueOr {A} (d : A) (r : Result A) : A :=
  match r with Ok x => x | Err _ => d end.

(* ===================================================================== *)
(** ** internal/model/resource.go *)
(* ===================================================================== *)

Module model.

Record ResourceSpec := {
  Type_ : string;
  Size : string;
  Region : string;
  Replicas : Z;
}.

Record ResourceRequest := {
  Name : string;
  Spec : ResourceSpec;
}.

Record ResourceResponse := {
  rName : string;
  rVersion : string;
  rDigest : option digest;
  rRepository : string;
  rSpec : option ResourceSpec;
  rCreatedAt : string;
  rDeleted : bool;
}.

Record PlatformResourceMetadata := {
  mName : string;
  mNamespace : string;
  mLabels : gmap string string;
  mAnnotations : gmap string string;
}.

Record PlatformResource := {
  APIVersion : string;
  Kind : string;
  Metadata : PlatformResourceMetadata;
  pSpec : ResourceSpec;
}.

(** [yaml.Marshal] of sigs.k8s.io/yaml, a library the program links. *)
Class Marshaller := yamlMarshal : PlatformResource → option bytes.

Definition validTypes : gmap string bool :=
  {[ "vm" := true; "database" := true; "bucket" := true ]}.
Definition validSizes : gmap string bool :=
  {[ "small" := true; "medium" := true; "large" := true ]}.

(** A Go map of booleans read at a missing key gives [false]. *)
Definition member (m : gmap string bool) (k : string) : bool := default false (m !! k).

Definition Validate (r : ResourceRequest) : option Invalid :=
  if String.eqb (Name r) "" then Some NameRequired
  else if negb (member validTypes (Type_ (Spec r))) then Some InvalidType
  else if negb (member validSizes (Size (Spec r))) then Some InvalidSize
  else if Replicas (Spec r) >? 10 then Some ReplicasRange
  else None.

Definition setReplicas (n : Z) (r : ResourceRequest) : ResourceRequest :=
  {| Name := Name r;
     Spec := {| Type_ := Type_ (Spec r); Size := Size (Spec r);
                Region := Region (Spec r); Replicas := n |} |}.

(** The request is updated in place (the receiver is a pointer): a replica
    count of zero becomes one.  The updated request is returned next to the
    YAML text. *)
Definition ToKubernetesYAML `{!Marshaller} (r : ResourceRequest) (namespace version : string)
    : M World (ResourceRequest * bytes) :=
  let r := if Replicas (Spec r) =? 0 then setReplicas 1 r else r in
  now <- timeNow ;;
  let pr := {|
    APIVersion := "gitops-squared.io/v1alpha1";
    Kind := "PlatformResource";
    Metadata := {|
      mName := Name r;
      mNamespace := namespace;
      mLabels := {[ "app.kubernetes.io/managed-by" := "gitops-squared" ]};
      mAnnotations := {[ "gitops-squared.io/version" := version;
                         "gitops-squared.io/pushed-at" := gotime.FormatRFC3339 now ]};
    |};
    pSpec := Spec r;
  |} in
  match yamlMarshal pr with
  | Some yamlBytes => ret (r, yamlBytes)
  | None => throw MarshalFailed
  end.

(** [yaml.Unmarshal] of the same library, as [GetResource] uses it. *)
Class Unmarshaller := yamlUnmarshal : bytes → option PlatformResource.

End model.

(* ===================================================================== *)
(** ** internal/oci/mediatype.go and internal/oci/client.go *)
(* ===================================================================== *)

Module oci.

Definition ArtifactTypeResource := "application/vnd.gitops-squared.resource.v1".
Definition ArtifactTypeCatalog := "application/vnd.gitops-squared.catalog.v1".
Definition MediaTypeResourceYAML := "application/vnd.gitops-squared.manifest.v1+yaml".
Definition MediaTypeFluxContent := "application/vnd.cncf.flux.content.v1.tar+gzip".
Definition MediaTypeFluxConfig := "application/vnd.cncf.flux.config.v1+json".
Definition AnnotationResourceName := "io.gitops-squared.resource.name".
Definition AnnotationResourceNamespace := "io.gitops-squared.resource.namespace".
Definition AnnotationResourceVersion := "io.gitops-squared.resource.version".
Definition AnnotationResourceDeleted := "io.gitops-squared.resource.deleted".

(** Constants of the image specification that the program names. *)
Definition AnnotationTitle := "org.opencontainers.image.title".
Definition AnnotationCreated := "org.opencontainers.image.created".

(** The config that [oras.PackManifest] fills in when the caller gives
    none. *)
Definition emptyConfig : Descriptor :=
  {| mediaType := "application/vnd.oci.empty.v1+json"; data := "{}"; annotations := ∅ |}.

Record Client := {
  registryHost : string;
  repoPrefix : string;
}.

Record ResourceInfo := {
  Repository : string;
  Namespace : string;
  Name : string;
  Digest : string;
  Version : string;
}.

Definition NewClient (registryHost repoPrefix : string) : Client :=
  {| registryHost := registryHost; repoPrefix := repoPrefix |}.

(** The handle [remote.NewRepository] returns: the repository it addresses. *)
Definition newRepo (c : Client) (repoPath : string) : M World string :=
  let ref := registryHost c +:+ "/" +:+ repoPath in
  call (NewRepository ref) ;;;
  ret repoPath.

Definition resourceRepoPath (c : Client) (namespace name : string) : string :=
  repoPrefix c +:+ "/" +:+ namespace +:+ "/" +:+ name.

(** [oras.Copy(ctx, store, tag, repo, tag, ...)]: upload the manifest that
    [tag] names in the memory store, with its blobs, and tag it in the
    remote repository. *)
Definition copyToRemote (repo tag : string) (m : Manifest) : M World unit :=
  call (Copy repo tag) ;;;
  modify (putTag repo tag m).

(** [repo.Tag(ctx, desc, tag)] *)
Definition tagRemote (repo tag : string) (m : Manifest) : M World unit :=
  call (Tag repo tag) ;;;
  modify (putTag repo tag m).

(** [repo.FetchReference(ctx, reference)] followed by the decoding of the
    manifest.  The program only ever resolves tags. *)
Definition fetchReference (repo reference : string) : M World Manifest :=
  call (FetchReference repo reference) ;;;
  w <- get ;;
  match tagsOf w repo !! reference with
  | Some m => ret m
  | None => throw (TagNotFound repo reference)
  end.

(** [repo.Fetch(ctx, layerDesc)] followed by [io.ReadAll]. *)
Definition fetchLayer (repo : string) (layerDesc : Descriptor) : M World bytes :=
  call (Fetch repo) ;;;
  ret (data layerDesc).

(** The version tag: [fmt.Sprintf("v%d", time.Now().Unix())]. *)
Definition versionTag (now : Z) : string := "v" +:+ pretty now.

Definition PushResource (c : Client) (namespace name : string) (manifest : bytes)
    : M World (digest * string) :=
  let repoPath := resourceRepoPath c namespace name in
  repo <- newRepo c repoPath ;;
  now <- timeNow ;;
  let version := versionTag now in
  let layerDesc := {|
    mediaType := MediaTypeResourceYAML;
    data := manifest;
    annotations := {[ AnnotationTitle := "platformresource.yaml";
                      AnnotationResourceName := name;
                      AnnotationResourceNamespace := namespace;
                      AnnotationResourceVersion := version ]};
  |} in
  created <- timeNow ;;
  let manifestDesc := {|
    artifactType := ArtifactTypeResource;
    config := emptyConfig;
    layers := [layerDesc];
    manifestAnnotations := {[ AnnotationCreated := gotime.FormatRFC3339 created;
                              AnnotationResourceName := name;
                              AnnotationResourceNamespace := namespace ]};
  |} in
  copyToRemote repo version manifestDesc ;;;
  tagRemote repo "latest" manifestDesc ;;;
  ret (DigestOf manifestDesc, version).

Definition PushTombstone (c : Client) (namespace name : string)
    : M World (digest * string) :=
  let repoPath := resourceRepoPath c namespace name in
  repo <- newRepo c repoPath ;;
  now <- timeNow ;;
  let version := versionTag now in
  let tombstone := "# deleted: " +:+ namespace +:+ "/" +:+ name +:+ newline in
  let layerDesc := {|
    mediaType := MediaTypeResourceYAML;
    data := tombstone;
    annotations := {[ AnnotationResourceName := name;
                      AnnotationResourceNamespace := namespace;
                      AnnotationResourceDeleted := "true";
                      AnnotationResourceVersion := version ]};
  |} in
  created <- timeNow ;;
  let manifestDesc := {|
    artifactType := ArtifactTypeResource;
    config := emptyConfig;
    layers := [layerDesc];
    manifestAnnotations := {[ AnnotationCreated := gotime.FormatRFC3339 created;
                              AnnotationResourceDeleted := "true" ]};
  |} in
  copyToRemote repo version manifestDesc ;;;
  tagRemote repo "latest" manifestDesc ;;;
  ret (DigestOf manifestDesc, version).

(** The annotations of the manifest, overridden by those of the layer. *)
Definition mergeAnnotations (m : Manifest) (layerDesc : Descriptor) : gmap string string :=
  annotations layerDesc ∪ manifestAnnotations m.

Definition PullResource (c : Client) (namespace name reference : string)
    : M World (bytes * gmap string string) :=
  let repoPath := resourceRepoPath c namespace name in
  repo <- newRepo c repoPath ;;
  manifest <- fetchReference repo reference ;;
  match layers manifest with
  | [] => throw NoLayers
  | layerDesc :: _ =>
      layerBytes <- fetchLayer repo layerDesc ;;
      ret (layerBytes, mergeAnnotations manifest layerDesc)
  end.

(** The body of the loop over one page of repository names. *)
Fixpoint scanRepoNames (c : Client) (repoNames : list string) (repos : list ResourceInfo)
    : list ResourceInfo :=
  match repoNames with
  | [] => repos
  | r :: rest =>
      if negb (gostrings.HasPrefix r (repoPrefix c +:+ "/")) then scanRepoNames c rest repos
      else
        let suffix := gostrings.TrimPrefix r (repoPrefix c +:+ "/") in
        match gostrings.SplitN2 suffix "/" with
        | [p0; p1] =>
            scanRepoNames c rest
              (repos ++ [{| Repository := r; Namespace := p0; Name := p1;
                            Digest := ""; Version := "" |}])
        | _ => scanRepoNames c rest repos
        end
  end.

(** The names the registry lists: every repository it holds. *)
Definition repoNamesOf (w : World) : list string := (map_to_list (repositories w)).*1.

Definition ListResourceRepos (c : Client) : M World (list ResourceInfo) :=
  call (NewRegistry (registryHost c)) ;;;
  call (Repositories (registryHost c)) ;;;
  w <- get ;;
  ret (scanRepoNames c (repoNamesOf w) []).

Definition catalogRepoPath := "gitops-squared/catalog".

Definition PushCatalog (c : Client) (tarGzBytes : bytes) : M World digest :=
  let repoPath := catalogRepoPath in
  repo <- newRepo c repoPath ;;
  let layerDesc := {| mediaType := MediaTypeFluxContent; data := tarGzBytes;
                      annotations := ∅ |} in
  let configDesc := {| mediaType := MediaTypeFluxConfig; data := "{}";
                       annotations := ∅ |} in
  created <- timeNow ;;
  let manifestDesc := {|
    artifactType := MediaTypeFluxConfig;
    config := configDesc;
    layers := [layerDesc];
    manifestAnnotations := {[ AnnotationCreated := gotime.FormatRFC3339 created ]};
  |} in
  copyToRemote repo "latest" manifestDesc ;;;
  ret (DigestOf manifestDesc).

End oci.

(* ===================================================================== *)
(** ** internal/api: the catalog manager (catalog.go) and the handlers *)
(* ===================================================================== *)

Module api.

(** *** archive/tar and compress/gzip *)

Record TarHeader := {
  hName : string;
  hMode : Z;
  hSize : Z;
}.

Record TarEntry := {
  header : TarHeader;
  content : bytes;
}.

(** What the program needs from the two libraries: whether [tar.Writer]
    accepts a header, and the bytes of the gzip-compressed archive. *)
Class Archiver := {
  tarEncodable : TarHeader → bool;
  tarGz : list TarEntry → bytes;
}.

Section Catalog.
Context `{!Archiver}.

(** [tw.WriteHeader(hdr)] followed by [tw.Write(b)], where
    [hdr.Size = len(b)] so that only the header can be refused. *)
Definition writeFile (tw : list TarEntry) (name : string) (b : bytes)
    : Result (list TarEntry) :=
  let hdr := {| hName := name; hMode := 420 (* 0644 *);
                hSize := Z.of_nat (String.length b) |} in
  if tarEncodable hdr then Ok (tw ++ [{| header := hdr; content := b |}])
  else Err (TarHeaderFailed name).

Definition buildKustomization (filenames : list string) : bytes :=
  let b := "apiVersion: kustomize.config.k8s.io/v1beta1" +:+ newline +:+
           "kind: Kustomization" +:+ newline +:+ "resources:" +:+ newline in
  let b := fold_left (λ b f, b +:+ ("  - " +:+ f +:+ newline)) filenames b in
  if (List.length filenames =? 0)%nat then b +:+ ("  []" +:+ newline) else b.

Definition manifestFilename (key : string) : string :=
  gostrings.ReplaceAll key "/" "-" +:+ ".yaml".

(** The loop over the entries of the map, in the order the runtime walks
    them. *)
Fixpoint writeManifests (entries : list (string * bytes))
    (tw : list TarEntry) (filenames : list string)
    : Result (list TarEntry * list string) :=
  match entries with
  | [] => Ok (tw, filenames)
  | (key, manifest) :: rest =>
      let filename := manifestFilename key in
      let filenames := filenames ++ [filename] in
      match writeFile tw ("manifests/" +:+ filename) manifest with
      | Ok tw => writeManifests rest tw filenames
      | Err e => Err e
      end
  end.

(** The files handed to the tar writer, up to [tw.Close()]. *)
Definition catalogArchive (entries : list (string * bytes)) : Result (list TarEntry) :=
  match writeManifests entries [] [] with
  | Ok (tw, filenames) =>
      let kustomization := buildKustomization filenames in
      writeFile tw "manifests/kustomization.yaml" kustomization
  | Err e => Err e
  end.

(** [seed] stands for the order in which the runtime walks [resources]. *)
Definition buildCatalogTarGz (seed : nat) (resources : gmap string bytes) : Result bytes :=
  match catalogArchive (rangeOrder seed resources) with
  | Ok tw => Ok (tarGz tw)
  | Err e => Err e
  end.

(** *** The process: the world and the index of the catalog manager *)

Record State := {
  world : World;
  resources : gmap string bytes;
}.

Definition setWorld (w : World) (s : State) : State :=
  {| world := w; resources := resources s |}.
Definition setResources (rs : gmap string bytes) (s : State) : State :=
  {| world := world s; resources := rs |}.

Definition liftWorld {A} (m : M World A) : M State A :=
  λ s, let (r, w) := m (world s) in (r, setWorld w s).

Definition catalogKey (namespace name : string) : string := namespace +:+ "/" +:+ name.

Definition CatalogManager_Set (namespace name : string) (manifest : bytes) : M State unit :=
  modify (λ s, setResources (<[catalogKey namespace name := manifest]> (resources s)) s).

Definition CatalogManager_Delete (namespace name : string) : M State unit :=
  modify (λ s, setResources (delete (catalogKey namespace name) (resources s)) s).

Definition CatalogManager_Get (namespace name : string) : M State (option bytes) :=
  s <- get ;;
  ret (resources s !! catalogKey namespace name).

Definition CatalogManager_List : M State (gmap string bytes) :=
  s <- get ;;
  ret (resources s).

Definition PushCatalog (c : oci.Client) : M State unit :=
  s <- get ;;
  let resources := resources s in
  match buildCatalogTarGz (rangeSeed (world s)) resources with
  | Err e => throw e
  | Ok tarGzBytes =>
      liftWorld (oci.PushCatalog c tarGzBytes) ;;;
      ret tt
  end.

(** The loop of [Restore] over the listed repositories. *)
Fixpoint restoreLoop (c : oci.Client) (repos : list oci.ResourceInfo) (restored : nat)
    : M State nat :=
  match repos with
  | [] => ret restored
  | repo :: rest =>
      r <- attempt (liftWorld
             (oci.PullResource c (oci.Namespace repo) (oci.Name repo) "latest")) ;;
      match r with
      | Err _ => restoreLoop c rest restored
      | Ok (manifest, annotations) =>
          if String.eqb (goIndex annotations oci.AnnotationResourceDeleted) "true"
          then restoreLoop c rest restored
          else
            CatalogManager_Set (oci.Namespace repo) (oci.Name repo) manifest ;;;
            restoreLoop c rest (S restored)
      end
  end.

Definition Restore (c : oci.Client) : M State unit :=
  repos <- liftWorld (oci.ListResourceRepos c) ;;
  restored <- restoreLoop c repos 0 ;;
  PushCatalog c.

(** [NewCatalogManager], and [main] up to the point where it starts to
    serve: a failed restore is logged and the process goes on. *)
Definition NewCatalogManager (w : World) : State := {| world := w; resources := ∅ |}.

Definition startup (c : oci.Client) (w : World) : Result unit * State :=
  Restore c (NewCatalogManager w).

(** *** The handlers *)

Record Response := {
  status : Z;
  payload : option model.ResourceResponse;
}.

Definition writeError (status : Z) : Response := {| status := status; payload := None |}.
Definition writeJSON (status : Z) (resp : model.ResourceResponse) : Response :=
  {| status := status; payload := Some resp |}.

Definition defaultNamespace := "default".

Context `{!model.Marshaller}.

(** [req] is the decoded body of the request. *)
Definition CreateResource (c : oci.Client) (req : model.ResourceRequest) : M State Response :=
  match model.Validate req with
  | Some _ => ret (writeError 400)
  | None =>
  y <- attempt (liftWorld (model.ToKubernetesYAML req defaultNamespace "pending")) ;;
  match y with
  | Err _ => ret (writeError 500)
  | Ok (req, yamlBytes) =>
  p <- attempt (liftWorld (oci.PushResource c defaultNamespace (model.Name req) yamlBytes)) ;;
  match p with
  | Err _ => ret (writeError 500)
  | Ok (digest, version) =>
  y <- attempt (liftWorld (model.ToKubernetesYAML req defaultNamespace version)) ;;
  match y with
  | Err _ => ret (writeError 500)
  | Ok (req, yamlBytes) =>
  CatalogManager_Set defaultNamespace (model.Name req) yamlBytes ;;;
  _ <- attempt (PushCatalog c) ;;
  ret (writeJSON 201 {|
    model.rName := model.Name req;
    model.rVersion := version;
    model.rDigest := Some digest;
    model.rRepository := "gitops-squared/resources/" +:+ defaultNamespace +:+ "/" +:+ model.Name req;
    model.rSpec := Some (model.Spec req);
    model.rCreatedAt := "";
    model.rDeleted := false |})
  end end end end.

(** [name] is the path value of the request. *)
Definition DeleteResource (c : oci.Client) (name : string) : M State Response :=
  if String.eqb name "" then ret (writeError 400)
  else
  found <- CatalogManager_Get defaultNamespace name ;;
  match found with
  | None => ret (writeError 404)
  | Some _ =>
  p <- attempt (liftWorld (oci.PushTombstone c defaultNamespace name)) ;;
  match p with
  | Err _ => ret (writeError 500)
  | Ok (digest, version) =>
  CatalogManager_Delete defaultNamespace name ;;;
  _ <- attempt (PushCatalog c) ;;
  ret (writeJSON 200 {|
    model.rName := name;
    model.rVersion := version;
    model.rDigest := Some digest;
    model.rRepository := "";
    model.rSpec := None;
    model.rCreatedAt := "";
    model.rDeleted := true |})
  end end.

(** A response that carries the name alone; the other fields keep their
    zero value. *)
Definition nameOnly (name : string) : model.ResourceResponse :=
  {| model.rName := name; model.rVersion := ""; model.rDigest := None;
     model.rRepository := ""; model.rSpec := None; model.rCreatedAt := "";
     model.rDeleted := false |}.

Definition withSpec (spec : model.ResourceSpec) (resp : model.ResourceResponse)
    : model.ResourceResponse :=
  {| model.rName := model.rName resp; model.rVersion := model.rVersion resp;
     model.rDigest := model.rDigest resp; model.rRepository := model.rRepository resp;
     model.rSpec := Some spec; model.rCreatedAt := model.rCreatedAt resp;
     model.rDeleted := model.rDeleted resp |}.

(** The body that [ListResources] writes: the resources and their count. *)
Record ListResponse := {
  lStatus : Z;
  lResources : list model.ResourceResponse;
  lCount : nat;
}.

(** The loop of [ListResources] over the keys of the index. *)
Fixpoint listNames (keys : list string) (resources : list model.ResourceResponse)
    : list model.ResourceResponse :=
  match keys with
  | [] => resources
  | key :: rest =>
      match gostrings.SplitN2 key "/" with
      | [_; p1] => listNames rest (resources ++ [nameOnly p1])
      | _ => listNames rest resources
      end
  end.

Definition ListResources : M State ListResponse :=
  all <- CatalogManager_List ;;
  s <- get ;;
  let resources := listNames (rangeOrder (rangeSeed (world s)) all).*1 [] in
  ret {| lStatus := 200; lResources := resources; lCount := List.length resources |}.

Context `{!model.Unmarshaller}.

(** [name] is the path value of the request. *)
Definition GetResource (name : string) : M State Response :=
  if String.eqb name "" then ret (writeError 400)
  else
  found <- CatalogManager_Get defaultNamespace name ;;
  match found with
  | None => ret (writeError 404)
  | Some data =>
      let resp := nameOnly name in
      let resp := match model.yamlUnmarshal data with
                  | Some pr => withSpec (model.pSpec pr) resp
                  | None => resp
                  end in
      ret (writeJSON 200 resp)
  end.

End Catalog.

End api.

(* ===================================================================== *)
(** * Vocabulary of the properties *)
(* ===================================================================== *)

(** ** internal/oci *)

(** The bytes of the layers of a manifest. *)
Definition layerData (m : Manifest) : list bytes := data <$> layers m.

(** The manifest [PushResource] packs, given the two readings of the
    clock it takes. *)
Definition resourceManifest (namespace name : string) (manifest : bytes)
    (version : string) (created : Z) : Manifest :=
  {| artifactType := oci.ArtifactTypeResource;
     config := oci.emptyConfig;
     layers := [ {| mediaType := oci.MediaTypeResourceYAML;
                    data := manifest;
                    annotations :=
                      {[ oci.AnnotationTitle := "platformresource.yaml";
                         oci.AnnotationResourceName := name;
                         oci.AnnotationResourceNamespace := namespace;
                         oci.AnnotationResourceVersion := version ]} |} ];
     manifestAnnotations :=
       {[ oci.AnnotationCreated := gotime.FormatRFC3339 created;
          oci.AnnotationResourceName := name;
          oci.AnnotationResourceNamespace := namespace ]} |}.

(** The manifest [PushTombstone] packs. *)
Definition tombstoneManifest (namespace name : string)
    (version : string) (created : Z) : Manifest :=
  {| artifactType := oci.ArtifactTypeResource;
     config := oci.emptyConfig;
     layers := [ {| mediaType := oci.MediaTypeResourceYAML;
                    data := "# deleted: " +:+ namespace +:+ "/" +:+ name +:+ newline;
                    annotations :=
                      {[ oci.AnnotationResourceName := name;
                         oci.AnnotationResourceNamespace := namespace;
                         oci.AnnotationResourceDeleted := "true";
                         oci.AnnotationResourceVersion := version ]} |} ];
     manifestAnnotations :=
       {[ oci.AnnotationCreated := gotime.FormatRFC3339 created;
          oci.AnnotationResourceDeleted := "true" ]} |}.

(** The world after a push of manifest [m] under [version] that went
    through: two readings of the clock, the version tag, then [latest]. *)
Definition pushed (repoPath version : string) (m : Manifest) (w : World) : World :=
  putTag repoPath "latest" m (putTag repoPath version m (setTicks (S (S (ticks w))) w)).

(** The states a push can leave behind when it fails: nothing written
    (before or after the clock was read), or the version tag written and
    [latest] not moved. *)
Definition pushAborted (repoPath version : string) (m : Manifest) (w w' : World) : Prop :=
  w' = w ∨ w' = setTicks (S (S (ticks w))) w ∨
  w' = putTag repoPath version m (setTicks (S (S (ticks w))) w).

(** What [PullResource] returns is decided by the tags of the repository
    and by the three calls it makes; it writes nothing. *)
Definition pullOutcome (c : oci.Client) (ns name reference : string) (w : World)
    : Result (bytes * gmap string string) :=
  let path := oci.resourceRepoPath c ns name in
  if fails w (NewRepository (oci.registryHost c +:+ "/" +:+ path))
  then Err (CallFailed (NewRepository (oci.registryHost c +:+ "/" +:+ path)))
  else if fails w (FetchReference path reference)
  then Err (CallFailed (FetchReference path reference))
  else match tagsOf w path !! reference with
       | None => Err (TagNotFound path reference)
       | Some m =>
           match layers m with
           | [] => Err NoLayers
           | layerDesc :: _ =>
               if fails w (Fetch path) then Err (CallFailed (Fetch path))
               else Ok (data layerDesc, oci.mergeAnnotations m layerDesc)
           end
       end.

(** ** internal/api: what [Restore] computes *)

(** One round of the loop of [ListResourceRepos]: the repository it records
    for a name, if any. *)
Definition parseRepo (c : oci.Client) (r : string) : option oci.ResourceInfo :=
  if negb (gostrings.HasPrefix r (oci.repoPrefix c +:+ "/")) then None
  else match gostrings.SplitN2 (gostrings.TrimPrefix r (oci.repoPrefix c +:+ "/")) "/" with
       | [p0; p1] => Some {| oci.Repository := r; oci.Namespace := p0; oci.Name := p1;
                             oci.Digest := ""; oci.Version := "" |}
       | _ => None
       end.

(** One round of the loop of [Restore]: the entry it sets for a listed
    repository, if any. *)
Definition restoreEntry (c : oci.Client) (w : World) (repo : oci.ResourceInfo)
    : option (string * bytes) :=
  match pullOutcome c (oci.Namespace repo) (oci.Name repo) "latest" w with
  | Ok (manifest, annotations) =>
      if String.eqb (goIndex annotations oci.AnnotationResourceDeleted) "true" then None
      else Some (api.catalogKey (oci.Namespace repo) (oci.Name repo), manifest)
  | Err _ => None
  end.

(** A sequence of [Set]s applied to the index, first to last. *)
Definition setAll (l : list (string * bytes)) (idx : gmap string bytes) : gmap string bytes :=
  fold_left (λ m kv, <[kv.1 := kv.2]> m) l idx.

Definition listingFails (c : oci.Client) (w : World) : bool :=
  fails w (NewRegistry (oci.registryHost c)) || fails w (Repositories (oci.registryHost c)).

Definition restoredEntries (c : oci.Client) (w : World) : list (string * bytes) :=
  omap (restoreEntry c w) (oci.scanRepoNames c (oci.repoNamesOf w) []).

(** The bytes [Restore] sets for a key: the first layer under [latest] of
    the listed repository [<prefix>/<key>], when the key has a namespace and a
    name, the pull goes through and the version is not a tombstone. *)
Definition restorable (c : oci.Client) (w : World) (key : string) : option bytes :=
  match gostrings.SplitN2 key "/" with
  | [ns; name] =>
      if bool_decide (is_Some (repositories w !! (oci.repoPrefix c +:+ "/" +:+ key))) then
        match pullOutcome c ns name "latest" w with
        | Ok (manifest, annotations) =>
            if String.eqb (goIndex annotations oci.AnnotationResourceDeleted) "true"
            then None else Some manifest
        | Err _ => None
        end
      else None
  | _ => None
  end.

(** Two worlds in which the same calls fail and every repository but the
    catalog's holds the same tags. *)
Definition sameResources (w w' : World) : Prop :=
  fails w' = fails w ∧
  ∀ p, p ≠ oci.catalogRepoPath → repositories w' !! p = repositories w !! p.

(** The manifest [oci.PushCatalog] packs. *)
Definition catalogManifest (tarGzBytes : bytes) (created : Z) : Manifest :=
  {| artifactType := oci.MediaTypeFluxConfig;
     config := {| mediaType := oci.MediaTypeFluxConfig; data := "{}"; annotations := ∅ |};
     layers := [ {| mediaType := oci.MediaTypeFluxContent; data := tarGzBytes;
                    annotations := ∅ |} ];
     manifestAnnotations :=
       {[ oci.AnnotationCreated := gotime.FormatRFC3339 created ]} |}.

(** What [oci.PushCatalog] returns and the world it leaves. *)
Definition pushCatalogOutcome (c : oci.Client) (tarGzBytes : bytes) (w : World)
    : Result digest * World :=
  let ref := oci.registryHost c +:+ "/" +:+ oci.catalogRepoPath in
  let m := catalogManifest tarGzBytes (clock w (ticks w)) in
  if fails w (NewRepository ref) then (Err (CallFailed (NewRepository ref)), w)
  else if fails w (Copy oci.catalogRepoPath "latest")
  then (Err (CallFailed (Copy oci.catalogRepoPath "latest")), setTicks (S (ticks w)) w)
  else (Ok (DigestOf m), putTag oci.catalogRepoPath "latest" m (setTicks (S (ticks w)) w)).

(** What [api.PushCatalog] returns and the state it leaves. *)
Definition catalogPushOutcome `{!api.Archiver} (c : oci.Client) (s : api.State)
    : Result unit * api.State :=
  match api.buildCatalogTarGz (rangeSeed (api.world s)) (api.resources s) with
  | Err e => (Err e, s)
  | Ok tarGzBytes =>
      match pushCatalogOutcome c tarGzBytes (api.world s) with
      | (Ok _, w) => (Ok tt, api.setWorld w s)
      | (Err e, w) => (Err e, api.setWorld w s)
      end
  end.

(** ** The catalog archive *)

(** The file [buildCatalogTarGz] writes for an entry of the index. *)
Definition manifestFile (kv : string * bytes) : api.TarEntry :=
  {| api.header := {| api.hName := "manifests/" +:+ api.manifestFilename kv.1;
                      api.hMode := 420;
                      api.hSize := Z.of_nat (String.length kv.2) |};
     api.content := kv.2 |}.

(** The text of the manifest list: its heading, a line for each file name
    and, when there is none, the empty-list marker. *)
Definition kustomizationText (filenames : list string) : bytes :=
  "apiVersion: kustomize.config.k8s.io/v1beta1" +:+ newline +:+
  "kind: Kustomization" +:+ newline +:+ "resources:" +:+ newline +:+
  fold_right (λ f rest, "  - " +:+ f +:+ newline +:+ rest) "" filenames +:+
  (match filenames with [] => "  []" +:+ newline | _ => "" end).

(** The manifest-list file, listing [filenames]. *)
Definition kustomizationFile (filenames : list string) : api.TarEntry :=
  {| api.header := {| api.hName := "manifests/kustomization.yaml";
                      api.hMode := 420;
                      api.hSize := Z.of_nat (String.length (kustomizationText filenames)) |};
     api.content := kustomizationText filenames |}.

(** The archive for the entries of the index taken in a given order. *)
Definition archiveOf (order : list (string * bytes)) : list api.TarEntry :=
  (manifestFile <$> order) ++ [kustomizationFile ((λ kv, api.manifestFilename kv.1) <$> order)].

(** File names in lexicographic order. *)
Definition sortedNames (filenames : list string) : list string :=
  merge_sort (λ a b, Is_true (String.leb a b)) filenames.

(** ** The states the process reaches *)

(** The bytes under [latest] of a repository: the first layer, unless there
    is no such tag, no layer, or the version is a tombstone. *)
Definition liveLatest (w : World) (repoPath : string) : option bytes :=
  match tagsOf w repoPath !! "latest" with
  | Some m =>
      match layers m with
      | layerDesc :: _ =>
          if String.eqb (goIndex (oci.mergeAnnotations m layerDesc)
                           oci.AnnotationResourceDeleted) "true"
          then None else Some (data layerDesc)
      | [] => None
      end
  | None => None
  end.


(** A key of the form [namespace/name]. *)
Definition keyOfResource (k : string) : Prop :=
  ∃ ns name, gostrings.SplitN2 k "/" = [ns; name].

(** The request as [ToKubernetesYAML] leaves it, and the resource it
    marshals. *)
Definition defaulted (r : model.ResourceRequest) : model.ResourceRequest :=
  if model.Replicas (model.Spec r) =? 0 then model.setReplicas 1 r else r.

Definition platformResource (r : model.ResourceRequest) (namespace version : string)
    (now : Z) : model.PlatformResource :=
  {| model.APIVersion := "gitops-squared.io/v1alpha1";
     model.Kind := "PlatformResource";
     model.Metadata :=
       {| model.mName := model.Name (defaulted r);
          model.mNamespace := namespace;
          model.mLabels := {[ "app.kubernetes.io/managed-by" := "gitops-squared" ]};
          model.mAnnotations :=
            {[ "gitops-squared.io/version" := version;
               "gitops-squared.io/pushed-at" := gotime.FormatRFC3339 now ]} |};
     model.pSpec := model.Spec (defaulted r) |}.

Section Reachable.
Context `{!api.Archiver} `{!model.Marshaller}.

(** One step of the process or of its environment: a create or a retract
    is served, the process is restarted, or the network, the clock and the
    runtime change while the repositories stay as they are. *)
Inductive step (c : oci.Client) : api.State → api.State → Prop :=
  | step_create (req : model.ResourceRequest) (s : api.State) :
      step c s (api.CreateResource c req s).2
  | step_delete (name : string) (s : api.State) :
      step c s (api.DeleteResource c name s).2
  | step_restart (s : api.State) :
      step c s (api.startup c (api.world s)).2
  | step_environment (s : api.State) (w : World) :
      repositories w = repositories (api.world s) →
      step c s (api.setWorld w s).

(** The states reached from the start of the process on some registry. *)
Definition reachable (c : oci.Client) (s : api.State) : Prop :=
  ∃ w0, rtc (step c) (api.startup c w0).2 s.

(** Every entry of the index belongs to a resource whose [latest] version
    has a layer and is not a tombstone. *)
Definition indexLive (c : oci.Client) (s : api.State) : Prop :=
  ∀ k, is_Some (api.resources s !! k) →
       keyOfResource k ∧
       is_Some (liveLatest (api.world s) (oci.repoPrefix c +:+ "/" +:+ k)).

End Reachable.

(** ** The handlers, step by step *)

Section Outcomes.
Context `{!api.Archiver} `{!model.Marshaller}.

(** The response body of a create that went through. *)
Definition createdBody (req : model.ResourceRequest) (d : digest) (version : string)
    : model.ResourceResponse :=
  {| model.rName := model.Name req;
     model.rVersion := version;
     model.rDigest := Some d;
     model.rRepository :=
       "gitops-squared/resources/" +:+ api.defaultNamespace +:+ "/" +:+ model.Name req;
     model.rSpec := Some (model.Spec (defaulted req));
     model.rCreatedAt := "";
     model.rDeleted := false |}.

(** The response body of a retract that went through. *)
Definition deletedBody (name : string) (d : digest) (version : string)
    : model.ResourceResponse :=
  {| model.rName := name; model.rVersion := version; model.rDigest := Some d;
     model.rRepository := ""; model.rSpec := None; model.rCreatedAt := "";
     model.rDeleted := true |}.

(** [CreateResource], one decision after the other: validation, the first
    rendering, the push, the second rendering, then the index and the
    catalog. *)
Definition createOutcome (c : oci.Client) (req : model.ResourceRequest) (s : api.State)
    : Result api.Response * api.State :=
  match model.Validate req with
  | Some _ => (Ok (api.writeError 400), s)
  | None =>
      let w := api.world s in
      let w1 := setTicks (S (ticks w)) w in
      match model.yamlMarshal
              (platformResource req api.defaultNamespace "pending" (clock w (ticks w))) with
      | None => (Ok (api.writeError 500), api.setWorld w1 s)
      | Some pending =>
          match oci.PushResource c api.defaultNamespace (model.Name req) pending w1 with
          | (Err _, w2) => (Ok (api.writeError 500), api.setWorld w2 s)
          | (Ok (d, version), w2) =>
              let w3 := setTicks (S (ticks w2)) w2 in
              match model.yamlMarshal
                      (platformResource req api.defaultNamespace version
                         (clock w2 (ticks w2))) with
              | None => (Ok (api.writeError 500), api.setWorld w3 s)
              | Some final =>
                  (Ok (api.writeJSON 201 (createdBody req d version)),
                   (api.PushCatalog c
                      {| api.world := w3;
                         api.resources :=
                           <[api.catalogKey api.defaultNamespace (model.Name req) := final]>
                             (api.resources s) |}).2)
              end
          end
      end
  end.

(** [DeleteResource], one decision after the other. *)
Definition deleteOutcome (c : oci.Client) (name : string) (s : api.State)
    : Result api.Response * api.State :=
  if String.eqb name "" then (Ok (api.writeError 400), s)
  else match api.resources s !! api.catalogKey api.defaultNamespace name with
       | None => (Ok (api.writeError 404), s)
       | Some _ =>
           match oci.PushTombstone c api.defaultNamespace name (api.world s) with
           | (Err _, w1) => (Ok (api.writeError 500), api.setWorld w1 s)
           | (Ok (d, version), w1) =>
               (Ok (api.writeJSON 200 (deletedBody name d version)),
                (api.PushCatalog c
                   {| api.world := w1;
                      api.resources :=
                        delete (api.catalogKey api.defaultNamespace name) (api.resources s) |}).2)
           end
       end.

End Outcomes.

(** ** Inputs of the examples *)

Module demo.

Definition dquote : string := String "034"%char EmptyString.

Definition yamlLine (indent : string) (kv : string * string) : string :=
  indent +:+ kv.1 +:+ ": " +:+ kv.2 +:+ newline.

Definition sortedEntries (m : gmap string string) : list (string * string) :=
  merge_sort (λ a b, Is_true (String.leb a.1 b.1)) (map_to_list m).

Definition yamlMap (indent : string) (m : gmap string string) : string :=
  fold_right (λ kv acc, yamlLine indent kv +:+ acc) "" (sortedEntries m).

Definition quoteTimestamp (m : gmap string string) : gmap string string :=
  alter (λ t, dquote +:+ t +:+ dquote) "gitops-squared.io/pushed-at" m.

(** The text sigs.k8s.io/yaml produces for a [PlatformResource] whose
    names and versions are plain scalars: keys in alphabetical order, empty
    fields left out, the timestamp quoted. *)
Definition plainYAML : model.Marshaller := λ pr,
  Some ("apiVersion: " +:+ model.APIVersion pr +:+ newline +:+
        "kind: " +:+ model.Kind pr +:+ newline +:+
        "metadata:" +:+ newline +:+
        "  annotations:" +:+ newline +:+
        yamlMap "    " (quoteTimestamp (model.mAnnotations (model.Metadata pr))) +:+
        "  labels:" +:+ newline +:+
        yamlMap "    " (model.mLabels (model.Metadata pr)) +:+
        "  name: " +:+ model.mName (model.Metadata pr) +:+ newline +:+
        "  namespace: " +:+ model.mNamespace (model.Metadata pr) +:+ newline +:+
        "spec:" +:+ newline +:+
        (if String.eqb (model.Region (model.pSpec pr)) "" then ""
         else "  region: " +:+ model.Region (model.pSpec pr) +:+ newline) +:+
        (if model.Replicas (model.pSpec pr) =? 0 then ""
         else "  replicas: " +:+ pretty (model.Replicas (model.pSpec pr)) +:+ newline) +:+
        "  size: " +:+ model.Size (model.pSpec pr) +:+ newline +:+
        "  type: " +:+ model.Type_ (model.pSpec pr) +:+ newline).

(** A tar writer that accepts every header, and a readable stand-in for the
    compressed bytes: the files one after the other, name then content. *)
Definition listing : api.Archiver := {|
  api.tarEncodable := λ _, true;
  api.tarGz := λ tw,
    fold_right (λ e acc, api.hName (api.header e) +:+ newline +:+ api.content e +:+ acc) "" tw;
|}.

(** The client of [main], an empty registry that answers every call, and a
    clock that stands at 2023-11-14T22:13:20Z. *)
Definition client := oci.NewClient "localhost:5000" "gitops-squared/resources".

Definition emptyRegistry : World :=
  {| repositories := ∅; fails := λ _, false; clock := λ _, 1700000000;
     ticks := 0; rangeSeed := 0 |}.

(** The same registry, unreachable. *)
Definition unreachable : World :=
  {| repositories := ∅; fails := λ _, true; clock := λ _, 1700000000;
     ticks := 0; rangeSeed := 0 |}.

Definition web : model.ResourceRequest :=
  {| model.Name := "web";
     model.Spec := {| model.Type_ := "vm"; model.Size := "small";
                      model.Region := ""; model.Replicas := 0 |} |}.

(** An index with two entries. *)
Definition twoEntries : gmap string bytes :=
  {[ "default/a" := "kind: A"; "default/b" := "kind: B" ]}.

(** A registry that answers every call but the upload of the catalog. *)
Definition catalogDown : World :=
  {| repositories := ∅;
     fails := λ call, match call with
                      | Copy repoPath _ => String.eqb repoPath oci.catalogRepoPath
                      | _ => false
                      end;
     clock := λ _, 1700000000; ticks := 0; rangeSeed := 0 |}.

(** A request that asks for three replicas of a medium database. *)
Definition db : model.ResourceRequest :=
  {| model.Name := "db";
     model.Spec := {| model.Type_ := "database"; model.Size := "medium";
                      model.Region := "eu"; model.Replicas := 3 |} |}.

(** A valid request whose name holds a separator. *)
Definition nested : model.ResourceRequest :=
  {| model.Name := "app/db";
     model.Spec := {| model.Type_ := "vm"; model.Size := "small";
                      model.Region := ""; model.Replicas := 1 |} |}.

(** A request with an unknown type. *)
Definition bad : model.ResourceRequest :=
  {| model.Name := "x";
     model.Spec := {| model.Type_ := "queue"; model.Size := "small";
                      model.Region := ""; model.Replicas := 1 |} |}.



(** A tar writer that refuses the file of the key [default/b]. *)
Definition picky : api.Archiver := {|
  api.tarEncodable := λ hdr, negb (String.eqb (api.hName hdr) "manifests/default-b.yaml");
  api.tarGz := @api.tarGz listing;
|}.

(** A parser that rejects every document. *)
Definition noYAML : model.Unmarshaller := λ _, None.

(** The manifest of [web] as the first rendering of a create writes it. *)
Definition pendingYAML : bytes :=
  default "" (plainYAML (platformResource web "default" "pending" 1700000000)).


(** The process starts on the empty registry; the resource [web] is
    created, then retracted. *)
Definition started : Result unit * api.State :=
  @api.startup listing client emptyRegistry.

Definition created : Result api.Response * api.State :=
  @api.CreateResource listing plainYAML client web started.2.

Definition retracted : Result api.Response * api.State :=
  @api.DeleteResource listing client "web" created.2.

End demo.

(** ** Proof steps *)

(** Runs a push up to each of the calls that may fail. *)
Ltac run_push :=
  cbv [oci.PushResource oci.PushTombstone oci.newRepo oci.copyToRemote oci.tagRemote
       bind call timeNow modify ret];
  cbn [fails ticks clock setTicks];
  repeat match goal with
         | |- context [fails ?w ?c] =>
             lazymatch w with
             | putTag _ _ _ ?w0 => change (fails w c) with (fails w0 c)
             | setTicks _ ?w0 => change (fails w c) with (fails w0 c)
             | _ => destruct (fails w c)
             end
         end.

(* ===================================================================== *)
(** * Properties *)
(* ===================================================================== *)

(** ** Strings *)

Section StringFacts.

Lemma append_cons (x : ascii) (a b : string) : String x a +:+ b = String x (a +:+ b).
Proof. reflexivity. Qed.

Lemma append_nil (b : string) : "" +:+ b = b.
Proof. reflexivity. Qed.

Lemma append_assoc (a b c : string) : (a +:+ b) +:+ c = a +:+ (b +:+ c).
Proof.
  induction a as [|x a IH]; [done |].
  by rewrite !append_cons, IH.
Qed.

Lemma append_inv_head (p a b : string) : p +:+ a = p +:+ b → a = b.
Proof.
  induction p as [|x p IH]; [done |].
  rewrite !append_cons. intros [= H]. auto.
Qed.

Lemma stripPrefix_append (p s : string) : gostrings.stripPrefix p (p +:+ s) = Some s.
Proof.
  induction p as [|a p IH]; [by destruct s |].
  rewrite append_cons. simpl. by rewrite Ascii.eqb_refl.
Qed.

Lemma stripPrefix_Some (p s rest : string) :
  gostrings.stripPrefix p s = Some rest → s = p +:+ rest.
Proof.
  revert s; induction p as [|a p IH]; intros s; simpl.
  - destruct s; intros [= <-]; reflexivity.
  - destruct s as [|b s]; [done |].
    destruct (Ascii.eqb_spec a b) as [-> | _]; [| done].
    intros H. by rewrite append_cons, (IH _ H).
Qed.

Lemma HasPrefix_append (p s : string) : gostrings.HasPrefix (p +:+ s) p = true.
Proof. unfold gostrings.HasPrefix. by rewrite stripPrefix_append. Qed.

Lemma TrimPrefix_append (p s : string) : gostrings.TrimPrefix (p +:+ s) p = s.
Proof. unfold gostrings.TrimPrefix. by rewrite stripPrefix_append. Qed.

Lemma HasPrefix_true (s p : string) :
  gostrings.HasPrefix s p = true → s = p +:+ gostrings.TrimPrefix s p.
Proof.
  unfold gostrings.HasPrefix, gostrings.TrimPrefix.
  destruct (gostrings.stripPrefix p s) eqn:E; [| done].
  intros _. by apply stripPrefix_Some.
Qed.

Lemma Count_append (a b : string) (c : ascii) :
  gostrings.Count (a +:+ b) c = (gostrings.Count a c + gostrings.Count b c)%nat.
Proof.
  induction a as [|x a IH]; [done |].
  rewrite append_cons. simpl. rewrite IH. lia.
Qed.

Lemma Cut_Some (s : string) (c : ascii) (a b : string) :
  gostrings.Cut s c = Some (a, b) →
  s = a +:+ String c b ∧ gostrings.Count a c = 0%nat.
Proof.
  revert a; induction s as [|x s IH]; intros a; simpl; [done |].
  destruct (Ascii.eqb_spec x c) as [-> | Hne].
  - intros [= <- <-]. done.
  - destruct (gostrings.Cut s c) as [[a' b'] |] eqn:E; [| done].
    intros [= <- <-]. destruct (IH _ eq_refl) as [-> Hc].
    split; [done |]. simpl.
    destruct (Ascii.eqb_spec x c); [done | by rewrite Hc].
Qed.

Lemma Cut_None (s : string) (c : ascii) :
  gostrings.Cut s c = None ↔ gostrings.Count s c = 0%nat.
Proof.
  induction s as [|x s IH]; simpl; [done |].
  destruct (Ascii.eqb x c); [split; [done | lia] |].
  destruct (gostrings.Cut s c) as [[a b] |]; simpl.
  - split; [done |]. intros H. by apply IH in H.
  - split; [intros _; by apply IH | done].
Qed.

Lemma Cut_append (a b : string) (c : ascii) :
  gostrings.Count a c = 0%nat →
  gostrings.Cut (a +:+ String c b) c = Some (a, b).
Proof.
  induction a as [|x a IH].
  - intros _. rewrite append_nil. simpl. by rewrite Ascii.eqb_refl.
  - rewrite append_cons. simpl.
    destruct (Ascii.eqb x c); [lia |]. intros H. by rewrite IH.
Qed.

(** [SplitN2] gives two parts exactly when the separator occurs, and the
    two parts then put the string back together. *)
Lemma SplitN2_two (s : string) (c : ascii) (a b : string) :
  gostrings.SplitN2 s c = [a; b] ↔
  s = a +:+ String c b ∧ gostrings.Count a c = 0%nat.
Proof.
  unfold gostrings.SplitN2. split.
  - destruct (gostrings.Cut s c) as [[a' b'] |] eqn:E; [| done].
    intros [= <- <-]. by apply Cut_Some.
  - intros [-> H]. by rewrite Cut_append.
Qed.

Lemma SplitN2_one (s : string) (c : ascii) :
  gostrings.Count s c = 0%nat → gostrings.SplitN2 s c = [s].
Proof. intros H. unfold gostrings.SplitN2. apply Cut_None in H. by rewrite H. Qed.

Lemma SplitN2_cases (s : string) (c : ascii) :
  (gostrings.Count s c = 0%nat ∧ gostrings.SplitN2 s c = [s]) ∨
  (∃ a b, gostrings.SplitN2 s c = [a; b]).
Proof.
  unfold gostrings.SplitN2.
  destruct (gostrings.Cut s c) as [[a b] |] eqn:E; [right; eauto |].
  left. split; [by apply Cut_None | done].
Qed.

End StringFacts.

(** ** The registry *)

Section WorldFacts.

Lemma tagsOf_putTag (repoPath tag : string) (m : Manifest) (w : World) (p : string) :
  tagsOf (putTag repoPath tag m w) p =
  if decide (repoPath = p) then <[tag := m]> (tagsOf w repoPath) else tagsOf w p.
Proof.
  unfold tagsOf at 1. unfold putTag. simpl.
  rewrite lookup_insert. by case_decide.
Qed.

Lemma tagsOf_setTicks (n : nat) (w : World) (p : string) : tagsOf (setTicks n w) p = tagsOf w p.
Proof. done. Qed.

Lemma fails_putTag (repoPath tag : string) (m : Manifest) (w : World) :
  fails (putTag repoPath tag m w) = fails w.
Proof. done. Qed.

(** A repository is listed after [putTag] when it is the one written or
    was listed before. *)
Lemma repositories_putTag (repoPath tag : string) (m : Manifest) (w : World) (p : string) :
  is_Some (repositories (putTag repoPath tag m w) !! p) ↔
  p = repoPath ∨ is_Some (repositories w !! p).
Proof.
  unfold putTag. simpl. rewrite lookup_insert. case_decide; subst.
  - split; [by left | by eauto].
  - split; [by right | by intros [? | ?]].
Qed.


End WorldFacts.

(** ** internal/oci *)

Section ClientFacts.

Lemma PushResource_cases (c : oci.Client) (ns name : string) (b : bytes) (w : World) :
  let path := oci.resourceRepoPath c ns name in
  let v := oci.versionTag (clock w (ticks w)) in
  let m := resourceManifest ns name b v (clock w (S (ticks w))) in
  match oci.PushResource c ns name b w with
  | (Ok (d, v'), w') =>
      d = DigestOf m ∧ v' = v ∧ w' = pushed path v m w ∧
      fails w (NewRepository (oci.registryHost c +:+ "/" +:+ path)) = false
  | (Err _, w') => pushAborted path v m w w'
  end.
Proof.
  intros path v m; subst path v m. run_push;
    unfold pushAborted, pushed; try tauto; repeat split; reflexivity.
Qed.

Lemma PushTombstone_cases (c : oci.Client) (ns name : string) (w : World) :
  let path := oci.resourceRepoPath c ns name in
  let v := oci.versionTag (clock w (ticks w)) in
  let m := tombstoneManifest ns name v (clock w (S (ticks w))) in
  match oci.PushTombstone c ns name w with
  | (Ok (d, v'), w') =>
      d = DigestOf m ∧ v' = v ∧ w' = pushed path v m w ∧
      fails w (NewRepository (oci.registryHost c +:+ "/" +:+ path)) = false
  | (Err _, w') => pushAborted path v m w w'
  end.
Proof.
  intros path v m; subst path v m. run_push;
    unfold pushAborted, pushed; try tauto; repeat split; reflexivity.
Qed.

Lemma PullResource_outcome (c : oci.Client) (ns name reference : string) (w : World) :
  oci.PullResource c ns name reference w = (pullOutcome c ns name reference w, w).
Proof.
  unfold pullOutcome.
  cbv [oci.PullResource oci.newRepo oci.fetchReference oci.fetchLayer bind call get ret throw].
  destruct (fails w (NewRepository _)); [done |].
  destruct (fails w (FetchReference _ _)); [done |].
  destruct (tagsOf w _ !! reference) as [m |]; [| done].
  destruct (layers m) as [| l rest]; [done |].
  by destruct (fails w (Fetch _)).
Qed.

End ClientFacts.

(** ** Publish, then fetch [latest] *)

Section RoundTrip.

Lemma pushed_latest (path v : string) (m : Manifest) (w : World) :
  tagsOf (pushed path v m w) path !! "latest" = Some m.
Proof.
  unfold pushed. rewrite tagsOf_putTag, decide_True by done.
  by rewrite lookup_insert_eq.
Qed.


(** A push writes the generated tag and [latest] of one repository, and
    nothing else. *)
Lemma pushed_other (path v : string) (m : Manifest) (w : World) (p tag : string) :
  p ≠ path ∨ (tag ≠ "latest" ∧ tag ≠ v) →
  tagsOf (pushed path v m w) p !! tag = tagsOf w p !! tag.
Proof.
  intros H. unfold pushed. rewrite tagsOf_putTag.
  destruct (decide (path = p)) as [<- | Hne].
  - destruct H as [H | [H1 H2]]; [done |].
    rewrite lookup_insert_ne by done.
    rewrite tagsOf_putTag, decide_True by done.
    by rewrite lookup_insert_ne.
  - rewrite tagsOf_putTag, decide_False by done. done.
Qed.

(** C3. After a successful [PushResource], [PullResource] at [latest]
    (when its two requests reach the registry) returns the very bytes that
    were pushed, and annotations that carry the name, the namespace and the
    version tag the push returned. *)
Theorem push_then_pull_latest (c : oci.Client) (ns name : string) (manifest : bytes)
    (w w' : World) (d : digest) (v : string) :
  oci.PushResource c ns name manifest w = (Ok (d, v), w') →
  fails w' (FetchReference (oci.resourceRepoPath c ns name) "latest") = false →
  fails w' (Fetch (oci.resourceRepoPath c ns name)) = false →
  ∃ annotations : gmap string string,
    oci.PullResource c ns name "latest" w' = (Ok (manifest, annotations), w') ∧
    annotations !! oci.AnnotationResourceName = Some name ∧
    annotations !! oci.AnnotationResourceNamespace = Some ns ∧
    annotations !! oci.AnnotationResourceVersion = Some v.
Proof.
  intros Hpush Hf1 Hf2.
  pose proof (PushResource_cases c ns name manifest w) as H.
  rewrite Hpush in H. cbv zeta in H. destruct H as (_ & -> & -> & Hnew).
  eexists. rewrite PullResource_outcome. unfold pullOutcome.
  change (fails (pushed ?p ?v ?m w)) with (fails w) in *.
  rewrite Hnew, Hf1, pushed_latest. cbn [layers resourceManifest].
  rewrite Hf2. split; [reflexivity |].
  unfold oci.mergeAnnotations. cbn [annotations manifestAnnotations data].
  repeat split; apply lookup_union_Some_l; by simplify_map_eq.
Qed.

End RoundTrip.

Lemma push_then_pull_latest_witness :
  ∃ annotations : gmap string string,
    oci.PullResource demo.client "default" "web" "latest"
      (oci.PushResource demo.client "default" "web" "kind: PlatformResource"
         demo.emptyRegistry).2
    = (Ok ("kind: PlatformResource", annotations),
       (oci.PushResource demo.client "default" "web" "kind: PlatformResource"
          demo.emptyRegistry).2) ∧
    annotations !! oci.AnnotationResourceName = Some "web" ∧
    annotations !! oci.AnnotationResourceNamespace = Some "default" ∧
    annotations !! oci.AnnotationResourceVersion = Some "v1700000000".
Proof.
  eapply (push_then_pull_latest demo.client "default" "web" "kind: PlatformResource"
            demo.emptyRegistry);
    [vm_compute; reflexivity | reflexivity | reflexivity].
Defined.

(** ** Version tags and [latest] *)

Section Versions.


End Versions.



(** ** internal/api: the loop of [Restore] *)

Section RestoreLoop.
Context `{!api.Archiver}.

Lemma setWorld_world (s : api.State) : api.setWorld (api.world s) s = s.
Proof. by destruct s. Qed.

Lemma scanRepoNames_cons (c : oci.Client) (r : string) (names : list string)
    (acc : list oci.ResourceInfo) :
  oci.scanRepoNames c (r :: names) acc =
  match parseRepo c r with
  | Some info => oci.scanRepoNames c names (acc ++ [info])
  | None => oci.scanRepoNames c names acc
  end.
Proof.
  cbn [oci.scanRepoNames]. unfold parseRepo.
  destruct (negb (gostrings.HasPrefix r _)); [done |].
  by destruct (gostrings.SplitN2 _ _) as [| p0 [| p1 [| ? ?]]].
Qed.

Lemma scanRepoNames_omap (c : oci.Client) (names : list string) (acc : list oci.ResourceInfo) :
  oci.scanRepoNames c names acc = acc ++ omap (parseRepo c) names.
Proof.
  revert acc; induction names as [| r names IH]; intros acc.
  - simpl. by rewrite app_nil_r.
  - rewrite scanRepoNames_cons. cbn [omap list_omap].
    destruct (parseRepo c r); rewrite IH; [| done].
    by rewrite <- app_assoc.
Qed.

Lemma ListResourceRepos_outcome (c : oci.Client) (w : World) :
  oci.ListResourceRepos c w =
  (if fails w (NewRegistry (oci.registryHost c))
   then Err (CallFailed (NewRegistry (oci.registryHost c)))
   else if fails w (Repositories (oci.registryHost c))
   then Err (CallFailed (Repositories (oci.registryHost c)))
   else Ok (oci.scanRepoNames c (oci.repoNamesOf w) []), w).
Proof.
  cbv [oci.ListResourceRepos bind call get ret].
  destruct (fails w (NewRegistry _)); [done |].
  by destruct (fails w (Repositories _)).
Qed.

Lemma restoreLoop_cons (c : oci.Client) (repo : oci.ResourceInfo)
    (repos : list oci.ResourceInfo) (n : nat) (s : api.State) :
  api.restoreLoop c (repo :: repos) n s =
  match restoreEntry c (api.world s) repo with
  | Some kv => api.restoreLoop c repos (S n)
                 (api.setResources (<[kv.1 := kv.2]> (api.resources s)) s)
  | None => api.restoreLoop c repos n s
  end.
Proof.
  cbn [api.restoreLoop]. unfold bind at 1. unfold attempt, api.liftWorld.
  rewrite PullResource_outcome, setWorld_world. unfold restoreEntry.
  destruct (pullOutcome c _ _ _ _) as [[manifest anns] | e]; [| done].
  by destruct (String.eqb _ _).
Qed.

(** The loop never fails, leaves the world as it is, and applies to the
    index the [Set]s of the repositories that could be pulled and are not
    tombstones. *)
Lemma restoreLoop_spec (c : oci.Client) (repos : list oci.ResourceInfo) (n : nat)
    (s : api.State) :
  api.restoreLoop c repos n s =
  (Ok (n + List.length (omap (restoreEntry c (api.world s)) repos))%nat,
   api.setResources (setAll (omap (restoreEntry c (api.world s)) repos) (api.resources s)) s).
Proof.
  revert n s; induction repos as [| repo repos IH]; intros n s.
  - simpl. unfold ret, setAll. simpl. destruct s. do 2 f_equal. lia.
  - rewrite restoreLoop_cons. cbn [omap list_omap].
    destruct (restoreEntry c (api.world s) repo) as [kv |]; [| apply IH].
    rewrite IH. cbn [api.world api.resources api.setResources List.length setAll fold_left].
    do 2 f_equal. lia.
Qed.

End RestoreLoop.

(** ** internal/api: [PushCatalog] and [Restore] *)

Section RestoreFacts.
Context `{!api.Archiver}.

Lemma oci_PushCatalog_outcome (c : oci.Client) (tarGzBytes : bytes) (w : World) :
  oci.PushCatalog c tarGzBytes w = pushCatalogOutcome c tarGzBytes w.
Proof.
  unfold pushCatalogOutcome.
  cbv [oci.PushCatalog oci.newRepo oci.copyToRemote bind call timeNow modify ret].
  destruct (fails w (NewRepository _)); [done |].
  cbn [fails ticks clock setTicks].
  by destruct (fails w (Copy _ _)).
Qed.

Lemma sameResources_refl (w : World) : sameResources w w.
Proof. by split. Qed.

Lemma sameResources_trans (w1 w2 w3 : World) :
  sameResources w1 w2 → sameResources w2 w3 → sameResources w1 w3.
Proof.
  intros [Hf1 Hr1] [Hf2 Hr2]. split; [congruence |].
  intros p Hp. rewrite Hr2, Hr1; done.
Qed.

Lemma sameResources_pushCatalog (c : oci.Client) (tarGzBytes : bytes) (w : World) :
  sameResources w (pushCatalogOutcome c tarGzBytes w).2.
Proof.
  unfold pushCatalogOutcome.
  destruct (fails w (NewRepository _)); [apply sameResources_refl |].
  destruct (fails w (Copy _ _)); [by split |].
  split; [done |]. intros p Hp. cbn [snd putTag setRepositories repositories].
  by rewrite lookup_insert_ne.
Qed.

Lemma PushCatalog_outcome (c : oci.Client) (s : api.State) :
  api.PushCatalog c s = catalogPushOutcome c s.
Proof.
  unfold catalogPushOutcome.
  cbv beta iota zeta delta [api.PushCatalog bind get ret throw api.liftWorld].
  destruct (api.buildCatalogTarGz _ _) as [tgz | e]; [| done].
  rewrite oci_PushCatalog_outcome.
  by destruct (pushCatalogOutcome c tgz (api.world s)) as [[d | e] w'].
Qed.

(** [PushCatalog] leaves the index alone and writes at most the catalog
    repository. *)
Lemma PushCatalog_frame (c : oci.Client) (s : api.State) :
  api.resources (api.PushCatalog c s).2 = api.resources s ∧
  sameResources (api.world s) (api.world (api.PushCatalog c s).2).
Proof.
  rewrite PushCatalog_outcome. unfold catalogPushOutcome.
  destruct (api.buildCatalogTarGz _ _) as [tgz | e].
  - pose proof (sameResources_pushCatalog c tgz (api.world s)) as Hs.
    by destruct (pushCatalogOutcome c tgz (api.world s)) as [[d | e] w'].
  - split; [done | apply sameResources_refl].
Qed.

(** [Restore] stops when the repositories cannot be listed; otherwise it
    runs the loop and ends with [PushCatalog]. *)
Lemma Restore_unfold (c : oci.Client) (s : api.State) :
  api.Restore c s =
  if fails (api.world s) (NewRegistry (oci.registryHost c))
  then (Err (CallFailed (NewRegistry (oci.registryHost c))), s)
  else if fails (api.world s) (Repositories (oci.registryHost c))
  then (Err (CallFailed (Repositories (oci.registryHost c))), s)
  else api.PushCatalog c
         (api.setResources (setAll (restoredEntries c (api.world s)) (api.resources s)) s).
Proof.
  unfold api.Restore. unfold bind at 1. unfold api.liftWorld.
  rewrite ListResourceRepos_outcome, setWorld_world.
  destruct (fails _ (NewRegistry _)); [done |].
  destruct (fails _ (Repositories _)); [done |].
  unfold bind. by rewrite restoreLoop_spec.
Qed.

Lemma Restore_resources (c : oci.Client) (s : api.State) :
  api.resources (api.Restore c s).2 =
  if listingFails c (api.world s) then api.resources s
  else setAll (restoredEntries c (api.world s)) (api.resources s).
Proof.
  rewrite Restore_unfold. unfold listingFails.
  destruct (fails _ (NewRegistry _)); [done |].
  destruct (fails _ (Repositories _)); [done |].
  simpl. by destruct (PushCatalog_frame c
    (api.setResources (setAll (restoredEntries c (api.world s)) (api.resources s)) s)).
Qed.

Lemma Restore_world (c : oci.Client) (s : api.State) :
  sameResources (api.world s) (api.world (api.Restore c s).2).
Proof.
  rewrite Restore_unfold.
  destruct (fails _ (NewRegistry _)); [apply sameResources_refl |].
  destruct (fails _ (Repositories _)); [apply sameResources_refl |].
  by destruct (PushCatalog_frame c
    (api.setResources (setAll (restoredEntries c (api.world s)) (api.resources s)) s)).
Qed.

End RestoreFacts.

(** ** The index after a sequence of [Set]s *)

Section SetAll.

Lemma setAll_cons (kv : string * bytes) (l : list (string * bytes)) (idx : gmap string bytes) :
  setAll (kv :: l) idx = setAll l (<[kv.1 := kv.2]> idx).
Proof. done. Qed.

Lemma setAll_notin (l : list (string * bytes)) (idx : gmap string bytes) (k : string) :
  k ∉ l.*1 → setAll l idx !! k = idx !! k.
Proof.
  revert idx; induction l as [| [k' b'] l IH]; intros idx Hk; [done |].
  rewrite setAll_cons. cbn [fmap list_fmap fst] in Hk.
  apply not_elem_of_cons in Hk as [Hne Hk].
  rewrite IH by done. by rewrite lookup_insert_ne.
Qed.

Lemma setAll_in (l : list (string * bytes)) (idx : gmap string bytes) (k : string) (b : bytes) :
  NoDup l.*1 → (k, b) ∈ l → setAll l idx !! k = Some b.
Proof.
  revert idx; induction l as [| [k' b'] l IH]; intros idx Hnd Hin.
  - by apply elem_of_nil in Hin.
  - rewrite setAll_cons. cbn [fmap list_fmap fst] in Hnd.
    apply NoDup_cons in Hnd as [Hnotin Hnd].
    apply elem_of_cons in Hin as [[= -> ->] | Hin].
    + rewrite setAll_notin by done. apply lookup_insert_eq.
    + by apply IH.
Qed.

(** [Set] never removes a key. *)
Lemma setAll_is_Some (l : list (string * bytes)) (idx : gmap string bytes) (k : string) :
  is_Some (idx !! k) → is_Some (setAll l idx !! k).
Proof.
  revert idx; induction l as [| [k' b'] l IH]; intros idx Hk; [done |].
  rewrite setAll_cons. apply IH. cbn [fst snd].
  rewrite lookup_insert. case_decide; [by eauto | done].
Qed.

Lemma omap_omap {A B C} (f : A → option B) (g : B → option C) (l : list A) :
  omap g (omap f l) = omap (λ x, f x ≫= g) l.
Proof.
  induction l as [| x l IH]; [done |].
  cbn [omap list_omap]. destruct (f x) as [y |]; cbn [mbind option_bind omap list_omap].
  - by rewrite IH.
  - done.
Qed.

Lemma NoDup_omap_fst {A} (f : A → option (string * bytes)) (l : list A) :
  NoDup l →
  (∀ x1 x2 y1 y2, f x1 = Some y1 → f x2 = Some y2 → y1.1 = y2.1 → x1 = x2) →
  NoDup (omap f l).*1.
Proof.
  intros Hnd Hinj. induction Hnd as [| x l Hx Hnd IH]; [constructor |].
  cbn [omap list_omap]. destruct (f x) as [y |] eqn:Hy; [| done].
  cbn [fmap list_fmap]. constructor; [| done].
  intros Hin. apply list_elem_of_fmap in Hin as (y' & Hfst & Hin).
  apply list_elem_of_omap in Hin as (x' & Hx' & Hy').
  assert (x = x') as -> by eauto. done.
Qed.

End SetAll.

(** ** What [Restore] sets, key by key *)

Section RestoreSemantics.

Lemma elem_of_repoNamesOf (w : World) (r : string) :
  r ∈ oci.repoNamesOf w ↔ is_Some (repositories w !! r).
Proof.
  unfold oci.repoNamesOf. rewrite list_elem_of_fmap. split.
  - intros ([k v] & -> & Hin). apply elem_of_map_to_list in Hin. by eexists.
  - intros [v Hv]. exists (r, v). split; [done |]. by apply elem_of_map_to_list.
Qed.

Lemma parseRepo_Some (c : oci.Client) (r : string) (info : oci.ResourceInfo) :
  parseRepo c r = Some info →
  r = oci.repoPrefix c +:+ "/" +:+ api.catalogKey (oci.Namespace info) (oci.Name info) ∧
  gostrings.SplitN2 (api.catalogKey (oci.Namespace info) (oci.Name info)) "/"
  = [oci.Namespace info; oci.Name info].
Proof.
  unfold parseRepo. destruct (gostrings.HasPrefix r _) eqn:Hp; [| done].
  cbn [negb]. apply HasPrefix_true in Hp.
  destruct (gostrings.SplitN2 _ _) as [| p0 [| p1 [| ? ?]]] eqn:Hs; try done.
  intros [= <-]. cbn [oci.Namespace oci.Name].
  apply SplitN2_two in Hs as [Hsuf Hc]. split.
  - rewrite Hp at 1. rewrite append_assoc, Hsuf. reflexivity.
  - apply SplitN2_two. by split.
Qed.

Lemma parseRepo_path (c : oci.Client) (key ns name : string) :
  gostrings.SplitN2 key "/" = [ns; name] →
  parseRepo c (oci.repoPrefix c +:+ "/" +:+ key) =
  Some {| oci.Repository := oci.repoPrefix c +:+ "/" +:+ key;
          oci.Namespace := ns; oci.Name := name; oci.Digest := ""; oci.Version := "" |}.
Proof.
  intros Hs. unfold parseRepo.
  rewrite <- (append_assoc (oci.repoPrefix c) "/" key).
  by rewrite HasPrefix_append, TrimPrefix_append, Hs.
Qed.

Lemma restorable_of_entry (c : oci.Client) (w : World) (r k : string) (b : bytes) :
  is_Some (repositories w !! r) →
  parseRepo c r ≫= restoreEntry c w = Some (k, b) →
  r = oci.repoPrefix c +:+ "/" +:+ k ∧ restorable c w k = Some b.
Proof.
  intros Hr. destruct (parseRepo c r) as [info |] eqn:Hp; [| done].
  cbn [mbind option_bind]. apply parseRepo_Some in Hp as [-> Hs].
  unfold restoreEntry.
  destruct (pullOutcome c _ _ _ w) as [[manifest anns] | e] eqn:Hpull; [| done].
  destruct (String.eqb _ _) eqn:Hdel; [done |].
  intros [= <- <-]. split; [done |].
  unfold restorable. rewrite Hs, bool_decide_true by done.
  by rewrite Hpull, Hdel.
Qed.

Lemma entry_of_restorable (c : oci.Client) (w : World) (k : string) (b : bytes) :
  restorable c w k = Some b →
  is_Some (repositories w !! (oci.repoPrefix c +:+ "/" +:+ k)) ∧
  parseRepo c (oci.repoPrefix c +:+ "/" +:+ k) ≫= restoreEntry c w = Some (k, b).
Proof.
  unfold restorable.
  destruct (gostrings.SplitN2 k "/") as [| ns [| name [| ? ?]]] eqn:Hs; try done.
  case_bool_decide as Hr; [| done].
  destruct (pullOutcome c ns name _ w) as [[manifest anns] | e] eqn:Hpull; [| done].
  destruct (String.eqb _ _) eqn:Hdel; [done |].
  intros [= <-]. split; [done |].
  rewrite (parseRepo_path c k ns name Hs). cbn [mbind option_bind].
  unfold restoreEntry. cbn [oci.Namespace oci.Name]. rewrite Hpull, Hdel.
  apply SplitN2_two in Hs as [-> _]. reflexivity.
Qed.

Lemma restoredEntries_bind (c : oci.Client) (w : World) :
  restoredEntries c w =
  omap (λ r, parseRepo c r ≫= restoreEntry c w) (oci.repoNamesOf w).
Proof.
  unfold restoredEntries. rewrite scanRepoNames_omap. cbn [app].
  apply omap_omap.
Qed.

Lemma restoredEntries_NoDup (c : oci.Client) (w : World) :
  NoDup (restoredEntries c w).*1.
Proof.
  rewrite restoredEntries_bind. apply NoDup_omap_fst.
  - apply NoDup_fst_map_to_list.
  - intros r1 r2 [k1 b1] [k2 b2] H1 H2 Hk. cbn [fst] in Hk. subst k2.
    destruct (parseRepo c r1) as [i1 |] eqn:Hp1; [| done].
    destruct (parseRepo c r2) as [i2 |] eqn:Hp2; [| done].
    cbn [mbind option_bind] in H1, H2.
    apply parseRepo_Some in Hp1 as [-> _]. apply parseRepo_Some in Hp2 as [-> _].
    unfold restoreEntry in H1, H2.
    destruct (pullOutcome c _ _ _ w) as [[? ?] | ?]; [| done].
    destruct (String.eqb _ _); [done |]. injection H1 as -> _.
    destruct (pullOutcome c _ _ _ w) as [[? ?] | ?]; [| done].
    destruct (String.eqb _ _); [done |]. injection H2 as -> _.
    done.
Qed.

Lemma restoredEntries_elem (c : oci.Client) (w : World) (k : string) (b : bytes) :
  (k, b) ∈ restoredEntries c w ↔ restorable c w k = Some b.
Proof.
  rewrite restoredEntries_bind, list_elem_of_omap. split.
  - intros (r & Hr & He). apply elem_of_repoNamesOf in Hr.
    by destruct (restorable_of_entry c w r k b Hr He).
  - intros H. apply entry_of_restorable in H as [Hr He].
    eexists. split; [by apply elem_of_repoNamesOf | done].
Qed.

(** The index after the loop of [Restore]: the bytes pulled for the keys
    that can be restored, the former entry for every other key. *)
Lemma setAll_restored (c : oci.Client) (w : World) (idx : gmap string bytes) (k : string) :
  setAll (restoredEntries c w) idx !! k =
  match restorable c w k with Some b => Some b | None => idx !! k end.
Proof.
  destruct (restorable c w k) as [b |] eqn:Hk.
  - apply setAll_in; [apply restoredEntries_NoDup | by apply restoredEntries_elem].
  - apply setAll_notin. intros Hin.
    apply list_elem_of_fmap in Hin as ([k' b'] & -> & Hin).
    apply restoredEntries_elem in Hin. cbn [fst] in Hk. congruence.
Qed.

End RestoreSemantics.

(** ** Resource repositories and the catalog repository *)

Section Paths.

Lemma resourceRepoPath_key (c : oci.Client) (ns name : string) :
  oci.resourceRepoPath c ns name = oci.repoPrefix c +:+ "/" +:+ api.catalogKey ns name.
Proof. reflexivity. Qed.

Lemma Count_resourceRepoPath (c : oci.Client) (ns name : string) :
  (2 ≤ gostrings.Count (oci.resourceRepoPath c ns name) "/")%nat.
Proof.
  unfold oci.resourceRepoPath.
  rewrite !Count_append. change (gostrings.Count "/" "/") with 1%nat. lia.
Qed.

Lemma resourceRepoPath_not_catalog (c : oci.Client) (ns name : string) :
  oci.resourceRepoPath c ns name ≠ oci.catalogRepoPath.
Proof.
  intros H. pose proof (Count_resourceRepoPath c ns name) as Hc.
  rewrite H in Hc. vm_compute in Hc. lia.
Qed.

Lemma tagsOf_sameResources (w w' : World) (p : string) :
  sameResources w w' → p ≠ oci.catalogRepoPath → tagsOf w' p = tagsOf w p.
Proof. intros [_ H] Hp. unfold tagsOf. by rewrite H. Qed.

Lemma pullOutcome_sameResources (c : oci.Client) (ns name reference : string) (w w' : World) :
  sameResources w w' →
  pullOutcome c ns name reference w' = pullOutcome c ns name reference w.
Proof.
  intros Hs. unfold pullOutcome.
  rewrite (tagsOf_sameResources w w') by (done || apply resourceRepoPath_not_catalog).
  destruct Hs as [-> _]. done.
Qed.

(** The outcome of a pull depends on the repository path alone. *)
Lemma pullOutcome_path (c : oci.Client) (ns name ns' name' reference : string) (w : World) :
  oci.resourceRepoPath c ns name = oci.resourceRepoPath c ns' name' →
  pullOutcome c ns name reference w = pullOutcome c ns' name' reference w.
Proof. intros H. unfold pullOutcome. by rewrite H. Qed.

Lemma restorable_sameResources (c : oci.Client) (w w' : World) (k : string) :
  sameResources w w' → restorable c w' k = restorable c w k.
Proof.
  intros Hs. unfold restorable.
  destruct (gostrings.SplitN2 k "/") as [| ns [| name [| ? ?]]] eqn:Hk; try done.
  apply SplitN2_two in Hk as [-> _].
  rewrite (pullOutcome_sameResources c ns name "latest" w w' Hs).
  destruct Hs as [_ Hr]. rewrite Hr; [done |].
  apply (resourceRepoPath_not_catalog c ns name).
Qed.

End Paths.

(** ** Restore twice; restore over an index that is not empty *)

Section RestoreIndex.
Context `{!api.Archiver}.

Lemma Restore_lookup (c : oci.Client) (s : api.State) (k : string) :
  api.resources (api.Restore c s).2 !! k =
  if listingFails c (api.world s) then api.resources s !! k
  else match restorable c (api.world s) k with
       | Some b => Some b
       | None => api.resources s !! k
       end.
Proof.
  rewrite Restore_resources. destruct (listingFails c _); [done |].
  apply setAll_restored.
Qed.

(** C5. Running [Restore] twice in a row leaves the index, after the second
    run, as it was after the first. *)
Theorem restore_twice_same_index (c : oci.Client) (s : api.State) :
  api.resources (api.Restore c (api.Restore c s).2).2
  = api.resources (api.Restore c s).2.
Proof.
  apply map_eq. intros k.
  pose proof (Restore_world c s) as Hw.
  rewrite (Restore_lookup c (api.Restore c s).2).
  assert (listingFails c (api.world (api.Restore c s).2) = listingFails c (api.world s))
    as -> by (unfold listingFails; by destruct Hw as [-> _]).
  destruct (listingFails c (api.world s)) eqn:Hl; [done |].
  rewrite (restorable_sameResources c _ _ k Hw).
  rewrite Restore_lookup, Hl.
  by destruct (restorable c (api.world s) k).
Qed.

(** C9. [Restore] only sets entries: every key of the index is still a key
    afterwards, and an entry whose repository is not listed by the registry,
    cannot be pulled, or holds a tombstone keeps its bytes. *)
Theorem restore_is_additive (c : oci.Client) (s : api.State) :
  (∀ k, is_Some (api.resources s !! k) →
        is_Some (api.resources (api.Restore c s).2 !! k)) ∧
  (∀ k b, api.resources s !! k = Some b → restorable c (api.world s) k = None →
          api.resources (api.Restore c s).2 !! k = Some b) ∧
  (∀ ns name b,
     api.resources s !! api.catalogKey ns name = Some b →
     repositories (api.world s) !! oci.resourceRepoPath c ns name = None ∨
     succeeded (oci.PullResource c ns name "latest" (api.world s)) = false →
     api.resources (api.Restore c s).2 !! api.catalogKey ns name = Some b).
Proof.
  assert (∀ k b, api.resources s !! k = Some b → restorable c (api.world s) k = None →
                 api.resources (api.Restore c s).2 !! k = Some b) as Hkeep.
  { intros k b Hk Hr. rewrite Restore_lookup, Hr. by destruct (listingFails c _). }
  split; [| split; [exact Hkeep |]].
  - intros k Hk. rewrite Restore_lookup.
    destruct (listingFails c _); [done |].
    destruct (restorable c _ k); [by eexists | done].
  - intros ns name b Hk Hbad. apply Hkeep; [done |].
    unfold restorable.
    destruct (gostrings.SplitN2 _ _) as [| ns' [| name' [| ? ?]]] eqn:Hs; try done.
    apply SplitN2_two in Hs as [Hkey _].
    assert (oci.resourceRepoPath c ns' name' = oci.resourceRepoPath c ns name) as Hpath.
    { rewrite !resourceRepoPath_key. f_equal. f_equal. by rewrite Hkey. }
    rewrite <- (resourceRepoPath_key c ns name).
    case_bool_decide as Hlisted; [| done].
    destruct Hbad as [Hnone | Hfail].
    + rewrite Hnone in Hlisted. by destruct Hlisted.
    + rewrite PullResource_outcome in Hfail. cbn [succeeded] in Hfail.
      rewrite (pullOutcome_path c ns' name' ns name) by done.
      by destruct (pullOutcome c ns name "latest" (api.world s)) as [[? ?] | ?].
Qed.

End RestoreIndex.

(** ** Malformed paths and failed pulls during [Restore] *)

Section RestoreSkips.
Context `{!api.Archiver}.

(** C7, as amended. While the repositories are listed, a path under the
    resource prefix whose suffix does not split into two parts for
    [SplitN(suffix, "/", 2)] is left out and the scan goes on with the
    remaining names; these are exactly the suffixes without separator.  A
    suffix with a namespace and more than one further segment is not left
    out: it is kept, with everything after the first separator as its name.
    In the loop of [Restore], a repository whose pull fails is left out and
    the loop goes on with the remaining repositories.  Neither makes the
    listing or the loop fail. *)
Theorem restore_skips_malformed_and_unreadable (c : oci.Client) :
  (∀ names1 r names2 acc,
     gostrings.HasPrefix r (oci.repoPrefix c +:+ "/") = true →
     List.length (gostrings.SplitN2
                    (gostrings.TrimPrefix r (oci.repoPrefix c +:+ "/")) "/") ≠ 2%nat →
     oci.scanRepoNames c (names1 ++ r :: names2) acc
     = oci.scanRepoNames c (names1 ++ names2) acc) ∧
  (∀ suffix,
     List.length (gostrings.SplitN2 suffix "/") ≠ 2%nat ↔
     gostrings.Count suffix "/" = 0%nat) ∧
  (∀ names1 ns rest names2 acc,
     gostrings.Count ns "/" = 0%nat →
     oci.scanRepoNames c (names1 ++ oci.resourceRepoPath c ns rest :: names2) acc
     = oci.scanRepoNames c names1 acc ++
       {| oci.Repository := oci.resourceRepoPath c ns rest; oci.Namespace := ns;
          oci.Name := rest; oci.Digest := ""; oci.Version := "" |}
       :: oci.scanRepoNames c names2 []) ∧
  (∀ w, listingFails c w = false → succeeded (oci.ListResourceRepos c w) = true) ∧
  (∀ repos1 repo repos2 n s,
     succeeded (oci.PullResource c (oci.Namespace repo) (oci.Name repo) "latest"
                  (api.world s)) = false →
     api.restoreLoop c (repos1 ++ repo :: repos2) n s
     = api.restoreLoop c (repos1 ++ repos2) n s) ∧
  (∀ repos n s, succeeded (api.restoreLoop c repos n s) = true).
Proof.
  split; [| split; [| split; [| split; [| split]]]].
  - intros names1 r names2 acc Hp Hlen.
    rewrite !scanRepoNames_omap, !omap_app. cbn [omap list_omap].
    assert (parseRepo c r = None) as ->; [| done].
    unfold parseRepo. rewrite Hp. cbn [negb].
    by destruct (gostrings.SplitN2 _ _) as [| p0 [| p1 [| ? ?]]].
  - intros suffix.
    destruct (SplitN2_cases suffix "/") as [[Hcount Hs] | (a & b & Hs)]; rewrite Hs.
    + split; [done |]. intros _. cbn. lia.
    + split; [done |]. intros Hcount. apply (SplitN2_one suffix "/") in Hcount.
      rewrite Hcount in Hs. discriminate Hs.
  - intros names1 ns rest names2 acc Hns.
    rewrite !scanRepoNames_omap, omap_app. cbn [omap list_omap app].
    rewrite resourceRepoPath_key.
    rewrite (parseRepo_path c (api.catalogKey ns rest) ns rest)
      by (apply SplitN2_two; by split).
    by rewrite <- app_assoc.
  - intros w Hl. rewrite ListResourceRepos_outcome.
    unfold listingFails in Hl. apply orb_false_elim in Hl as [-> ->]. done.
  - intros repos1 repo repos2 n s Hfail.
    rewrite !restoreLoop_spec, !omap_app. cbn [omap list_omap].
    assert (restoreEntry c (api.world s) repo = None) as ->; [| done].
    rewrite PullResource_outcome in Hfail. cbn [succeeded] in Hfail.
    unfold restoreEntry. by destruct (pullOutcome c _ _ _ _) as [[? ?] | ?].
  - intros repos n s. by rewrite restoreLoop_spec.
Qed.

End RestoreSkips.

(** ** Retract *)

Section Retract.
Context `{!api.Archiver}.

(** C10. [DeleteResource] for a name whose key is not in the index answers
    404 and changes nothing: no tombstone is pushed, the registry, the clock
    and the index are as before. *)
Theorem delete_absent_is_not_found (c : oci.Client) (name : string) (s : api.State) :
  name ≠ "" →
  api.resources s !! api.catalogKey api.defaultNamespace name = None →
  api.DeleteResource c name s = (Ok (api.writeError 404), s).
Proof.
  intros Hname Habsent. unfold api.DeleteResource.
  apply String.eqb_neq in Hname. rewrite Hname.
  unfold bind at 1. unfold api.CatalogManager_Get, bind, get, ret.
  by rewrite Habsent.
Qed.

End Retract.

Lemma restore_skips_malformed_and_unreadable_witness :
  let gone := {| oci.Repository := "gitops-squared/resources/default/gone";
                 oci.Namespace := "default"; oci.Name := "gone";
                 oci.Digest := ""; oci.Version := "" |} in
  oci.scanRepoNames demo.client
    (["gitops-squared/resources/default/a"] ++
     "gitops-squared/resources/orphan" :: ["gitops-squared/resources/default/b"]) []
  = oci.scanRepoNames demo.client
      (["gitops-squared/resources/default/a"] ++ ["gitops-squared/resources/default/b"]) [] ∧
  succeeded (oci.ListResourceRepos demo.client demo.emptyRegistry) = true ∧
  api.restoreLoop demo.client ([] ++ gone :: []) 0 (api.NewCatalogManager demo.emptyRegistry)
  = api.restoreLoop demo.client ([] ++ []) 0 (api.NewCatalogManager demo.emptyRegistry).
Proof.
  intros gone.
  destruct (restore_skips_malformed_and_unreadable demo.client)
    as (Hscan & _ & _ & Hlist & Hloop & _).
  split; [| split].
  - apply Hscan; [reflexivity | vm_compute; lia].
  - apply Hlist. reflexivity.
  - apply Hloop. reflexivity.
Defined.

(** A suffix with more than one separator does split in two for
    [SplitN(suffix, "/", 2)]: the repository is kept, with everything after
    the first separator as its name. *)
Example scan_keeps_nested_name :
  oci.scanRepoNames demo.client ["gitops-squared/resources/team/app/db"] []
  = [{| oci.Repository := "gitops-squared/resources/team/app/db";
        oci.Namespace := "team"; oci.Name := "app/db";
        oci.Digest := ""; oci.Version := "" |}].
Proof. vm_compute. reflexivity. Qed.

(** The program makes such a path itself: a create for the name [app/db]
    is valid and answers 201, the repository it writes has the suffix
    [default/app/db] with three segments, the listing returns it, and the
    restart restores it under the key [default/app/db]. *)
Lemma three_segment_path_is_restored :
  let created := @api.CreateResource demo.listing demo.plainYAML demo.client demo.nested
                   demo.started.2 in
  let restarted := @api.startup demo.listing demo.client (api.world created.2) in
  api.status <$> (match created.1 with Ok r => Some r | Err _ => None end) = Some 201 ∧
  gostrings.TrimPrefix "gitops-squared/resources/default/app/db"
    (oci.repoPrefix demo.client +:+ "/") = "default/app/db" ∧
  gostrings.Count "default/app/db" "/" = 2%nat ∧
  (oci.ListResourceRepos demo.client (api.world created.2)).1
  = Ok [{| oci.Repository := "gitops-squared/resources/default/app/db";
           oci.Namespace := "default"; oci.Name := "app/db";
           oci.Digest := ""; oci.Version := "" |}] ∧
  succeeded restarted = true ∧
  api.resources restarted.2 !! "default/app/db"
  = demo.plainYAML (platformResource demo.nested "default" "pending" 1700000000).
Proof.
  intros created restarted.
  split; [vm_compute; reflexivity |]. split; [vm_compute; reflexivity |].
  split; [vm_compute; reflexivity |]. split; [vm_compute; reflexivity |].
  split; vm_compute; reflexivity.
Qed.

Lemma delete_absent_is_not_found_witness :
  @api.DeleteResource demo.listing demo.client "web" (api.NewCatalogManager demo.emptyRegistry)
  = (Ok (api.writeError 404), api.NewCatalogManager demo.emptyRegistry).
Proof.
  apply (@delete_absent_is_not_found demo.listing); [discriminate | reflexivity].
Defined.

Lemma restore_is_additive_witness :
  let s := {| api.world := demo.emptyRegistry;
              api.resources := {[ "default/ghost" := "kind: Ghost" ]} |} in
  is_Some (api.resources (@api.Restore demo.listing demo.client s).2 !! "default/ghost") ∧
  api.resources (@api.Restore demo.listing demo.client s).2 !! "default/ghost"
  = Some "kind: Ghost" ∧
  api.resources (@api.Restore demo.listing demo.client s).2 !! api.catalogKey "default" "ghost"
  = Some "kind: Ghost".
Proof.
  intros s.
  destruct (@restore_is_additive demo.listing demo.client s) as (H1 & H2 & H3).
  split; [| split].
  - apply H1. by eexists.
  - apply H2; [reflexivity | vm_compute; reflexivity].
  - apply H3; [reflexivity | left; reflexivity].
Defined.

(** ** Tombstones *)

Section Tombstones.
Context `{!api.Archiver}.




End Tombstones.


(** ** The catalog after [Restore] *)

Section Republish.
Context `{!api.Archiver}.

(** C6, as amended. When the repositories can be listed, [Restore] ends
    with [PushCatalog] on the index the loop has produced, whatever the
    number of resources restored (with none restored, on the index as it
    was); and when [Restore] returns without error, [latest] of the catalog
    repository holds the archive of that index. *)
Theorem restore_republishes_catalog (c : oci.Client) (s : api.State) :
  listingFails c (api.world s) = false →
  api.Restore c s
  = api.PushCatalog c
      (api.setResources (setAll (restoredEntries c (api.world s)) (api.resources s)) s) ∧
  (restoredEntries c (api.world s) = [] → api.Restore c s = api.PushCatalog c s) ∧
  (succeeded (api.Restore c s) = true →
   ∃ tw m,
     api.catalogArchive
       (rangeOrder (rangeSeed (api.world s)) (api.resources (api.Restore c s).2)) = Ok tw ∧
     tagsOf (api.world (api.Restore c s).2) oci.catalogRepoPath !! "latest" = Some m ∧
     layerData m = [api.tarGz tw]).
Proof.
  intros Hl. unfold listingFails in Hl. apply orb_false_elim in Hl as [Hl1 Hl2].
  assert (api.Restore c s
          = api.PushCatalog c
              (api.setResources (setAll (restoredEntries c (api.world s)) (api.resources s)) s))
    as Heq by (by rewrite Restore_unfold, Hl1, Hl2).
  split; [exact Heq |]. split.
  - intros Hnone. rewrite Heq, Hnone. by destruct s.
  - rewrite Heq, PushCatalog_outcome. unfold catalogPushOutcome, api.buildCatalogTarGz.
    cbn [api.world api.resources api.setResources].
    destruct (api.catalogArchive _) as [tw | e] eqn:Harch; [| done].
    unfold pushCatalogOutcome.
    destruct (fails _ (NewRepository _)); [done |].
    destruct (fails _ (Copy _ _)); [done |].
    intros _. exists tw. eexists.
    cbn [snd api.world api.resources api.setWorld].
    split; [exact Harch |]. split.
    + rewrite tagsOf_putTag, decide_True by done. apply lookup_insert_eq.
    + reflexivity.
Qed.

End Republish.

Lemma restore_republishes_catalog_witness :
  let s := api.NewCatalogManager demo.emptyRegistry in
  @api.Restore demo.listing demo.client s = @api.PushCatalog demo.listing demo.client s ∧
  ∃ tw m,
    @api.catalogArchive demo.listing
      (rangeOrder 0 (api.resources (@api.Restore demo.listing demo.client s).2)) = Ok tw ∧
    tagsOf (api.world (@api.Restore demo.listing demo.client s).2) oci.catalogRepoPath
      !! "latest" = Some m ∧
    layerData m = [@api.tarGz demo.listing tw].
Proof.
  intros s.
  destruct (@restore_republishes_catalog demo.listing demo.client s) as (_ & Hzero & Hok).
  - vm_compute. reflexivity.
  - split; [apply Hzero; vm_compute; reflexivity |]. apply Hok. vm_compute. reflexivity.
Defined.

(** C6, as stated, fails: when the registry cannot be reached at startup,
    [Restore] returns the error of the listing and publishes nothing; the
    process starts with no catalog under [latest]. *)
Lemma startup_without_catalog :
  succeeded (@api.startup demo.listing demo.client demo.unreachable) = false ∧
  tagsOf (api.world (@api.startup demo.listing demo.client demo.unreachable).2)
    oci.catalogRepoPath !! "latest" = None.
Proof. split; vm_compute; reflexivity. Qed.

(** ** The catalog archive *)

Section Assemble.
Context `{!api.Archiver}.

Lemma rangeOrder_Permutation {V} (seed : nat) (m : gmap string V) :
  rangeOrder seed m ≡ₚ map_to_list m.
Proof.
  unfold rangeOrder. cbv zeta.
  destruct (permutations (map_to_list m) !! seed) as [l |] eqn:Hl; [| done].
  symmetry. apply permutations_Permutation. by eapply list_elem_of_lookup_2.
Qed.

Lemma buildKustomization_lines (filenames : list string) (b : string) :
  fold_left (λ b f, b +:+ ("  - " +:+ f +:+ newline)) filenames b
  = b +:+ fold_right (λ f rest, "  - " +:+ f +:+ newline +:+ rest) "" filenames.
Proof.
  revert b; induction filenames as [| f filenames IH]; intros b; cbn [fold_left fold_right].
  - induction b as [| x b IHb]; [done |]. by rewrite append_cons, <- IHb.
  - rewrite IH. by rewrite !append_assoc.
Qed.

Lemma buildKustomization_text (filenames : list string) :
  api.buildKustomization filenames = kustomizationText filenames.
Proof.
  unfold api.buildKustomization, kustomizationText. cbv zeta.
  rewrite buildKustomization_lines.
  destruct filenames as [| f filenames]; cbn [List.length Nat.eqb].
  - by rewrite !append_assoc.
  - rewrite !append_assoc. f_equal. f_equal. f_equal. f_equal. f_equal. f_equal.
    generalize (fold_right (λ f0 rest, "  - " +:+ f0 +:+ newline +:+ rest) "" (f :: filenames)).
    intros t. induction t as [| x t IHt]; [done |]. by rewrite append_cons, <- IHt.
Qed.

Lemma writeManifests_spec (entries : list (string * bytes)) (tw : list api.TarEntry)
    (filenames : list string) :
  (∀ kv, kv ∈ entries → api.tarEncodable (api.header (manifestFile kv)) = true) →
  api.writeManifests entries tw filenames
  = Ok (tw ++ (manifestFile <$> entries),
        filenames ++ ((λ kv, api.manifestFilename kv.1) <$> entries)).
Proof.
  revert tw filenames; induction entries as [| [key manifest] entries IH];
    intros tw filenames Henc.
  - cbn. by rewrite !app_nil_r.
  - cbn [api.writeManifests]. unfold api.writeFile.
    pose proof (Henc (key, manifest) ltac:(left)) as He.
    unfold manifestFile in He. cbn [api.header fst snd] in He. rewrite He.
    rewrite IH by (intros kv Hkv; apply Henc; by right).
    cbn [fmap list_fmap]. by rewrite <- !app_assoc.
Qed.

(** C2, as amended. When the tar writer accepts the headers, the archive
    holds one file for each entry of the index, named [manifests/] followed
    by the key with ['/'] replaced by ['-'] and by [.yaml], with the bytes of
    the entry, in the order in which the runtime walks the map; and after
    them one file [manifests/kustomization.yaml] that lists the same file
    names in the same order, or the marker of the empty list when there is no
    entry. *)
Theorem catalog_archive_contents (seed : nat) (resources : gmap string bytes) :
  let order := rangeOrder seed resources in
  let filenames := (λ kv, api.manifestFilename kv.1) <$> order in
  (∀ e, e ∈ archiveOf order → api.tarEncodable (api.header e) = true) →
  order ≡ₚ map_to_list resources ∧
  api.catalogArchive order = Ok (archiveOf order) ∧
  api.buildCatalogTarGz seed resources = Ok (api.tarGz (archiveOf order)) ∧
  List.length (archiveOf order) = S (size resources) ∧
  api.buildKustomization filenames = kustomizationText filenames ∧
  (resources = ∅ →
   archiveOf order = [kustomizationFile []] ∧
   kustomizationText [] =
     "apiVersion: kustomize.config.k8s.io/v1beta1" +:+ newline +:+
     "kind: Kustomization" +:+ newline +:+ "resources:" +:+ newline +:+
     "  []" +:+ newline).
Proof.
  intros order filenames Henc. subst filenames.
  assert (order ≡ₚ map_to_list resources) as Hperm by apply rangeOrder_Permutation.
  assert (api.catalogArchive order = Ok (archiveOf order)) as Harch.
  { unfold api.catalogArchive. rewrite writeManifests_spec.
    - cbn [app]. unfold api.writeFile. rewrite buildKustomization_text.
      pose proof (Henc (kustomizationFile ((λ kv, api.manifestFilename kv.1) <$> order))) as He.
      unfold kustomizationFile in He at 2. cbn [api.header] in He.
      rewrite He; [done |]. unfold archiveOf. apply elem_of_app. right. by left.
    - intros kv Hkv. apply Henc. unfold archiveOf. apply elem_of_app. left.
      by apply list_elem_of_fmap_2. }
  split; [exact Hperm |]. split; [exact Harch |]. split.
  { unfold api.buildCatalogTarGz. fold order. by rewrite Harch. }
  split.
  { unfold archiveOf. rewrite length_app, length_fmap.
    rewrite (Permutation_length Hperm), length_map_to_list. cbn. lia. }
  split; [apply buildKustomization_text |].
  intros ->. split; [| reflexivity].
  subst order. rewrite map_to_list_empty in Hperm.
  apply Permutation_nil_r in Hperm. by rewrite Hperm.
Qed.

End Assemble.

Lemma catalog_archive_contents_witness :
  @api.buildCatalogTarGz demo.listing 1 demo.twoEntries
  = Ok (@api.tarGz demo.listing (archiveOf (rangeOrder 1 demo.twoEntries))) ∧
  List.length (archiveOf (rangeOrder 1 demo.twoEntries)) = 3%nat.
Proof.
  destruct (@catalog_archive_contents demo.listing 1 demo.twoEntries)
    as (_ & _ & Hbuild & Hlen & _).
  - intros e _. reflexivity.
  - split; [exact Hbuild |]. rewrite Hlen. vm_compute. reflexivity.
Defined.

(** C2, as stated, fails: the file names are listed in the order in which
    the runtime walks the map, which is not sorted and not the same from one
    run to the next. *)
Lemma manifest_list_follows_map_order :
  let filenames := (λ kv, api.manifestFilename kv.1) <$> rangeOrder 1 demo.twoEntries in
  filenames = ["default-b.yaml"; "default-a.yaml"] ∧
  sortedNames filenames = ["default-a.yaml"; "default-b.yaml"] ∧
  @api.catalogArchive demo.listing (rangeOrder 1 demo.twoEntries)
  = Ok [manifestFile ("default/b", "kind: B"); manifestFile ("default/a", "kind: A");
        kustomizationFile ["default-b.yaml"; "default-a.yaml"]] ∧
  api.buildKustomization filenames ≠ api.buildKustomization (sortedNames filenames) ∧
  @api.buildCatalogTarGz demo.listing 0 demo.twoEntries
  ≠ @api.buildCatalogTarGz demo.listing 1 demo.twoEntries.
Proof.
  vm_compute. repeat split; try reflexivity; discriminate.
Qed.

(** ** Reachable states and the restore of an empty index *)

Section Derivable.
Context `{!api.Archiver} `{!model.Marshaller}.

Lemma liveLatest_latest (w w' : World) (p : string) :
  tagsOf w' p !! "latest" = tagsOf w p !! "latest" → liveLatest w' p = liveLatest w p.
Proof. intros Hl. unfold liveLatest. by rewrite Hl. Qed.

Lemma versionTag_not_latest (now : Z) : oci.versionTag now ≠ "latest".
Proof. unfold oci.versionTag. change "v" with (String "v" ""). by rewrite append_cons. Qed.

Lemma pushAborted_latest (path v : string) (m : Manifest) (w w' : World) (p : string) :
  v ≠ "latest" → pushAborted path v m w w' →
  tagsOf w' p !! "latest" = tagsOf w p !! "latest".
Proof.
  intros Hv [-> | [-> | ->]]; [done | done |].
  rewrite tagsOf_putTag. case_decide; [| done]. subst p.
  by rewrite lookup_insert_ne.
Qed.

Lemma pushed_latest_other (path v : string) (m : Manifest) (w : World) (p : string) :
  p ≠ path → tagsOf (pushed path v m w) p !! "latest" = tagsOf w p !! "latest".
Proof. intros Hp. apply pushed_other. by left. Qed.

Lemma liveLatest_resource (path ns name v : string) (b : bytes) (created : Z) (w : World) :
  liveLatest (pushed path v (resourceManifest ns name b v created) w) path = Some b.
Proof.
  unfold liveLatest. rewrite pushed_latest. cbn [layers resourceManifest].
  assert (goIndex (oci.mergeAnnotations (resourceManifest ns name b v created)
            {| mediaType := oci.MediaTypeResourceYAML; data := b;
               annotations :=
                 {[ oci.AnnotationTitle := "platformresource.yaml";
                    oci.AnnotationResourceName := name;
                    oci.AnnotationResourceNamespace := ns;
                    oci.AnnotationResourceVersion := v ]} |})
            oci.AnnotationResourceDeleted = "") as ->; [| done].
  unfold goIndex, oci.mergeAnnotations. cbn [annotations manifestAnnotations resourceManifest].
  rewrite lookup_union_r by by simplify_map_eq. by simplify_map_eq.
Qed.

Lemma liveLatest_like_pushed (w' w : World) (path ns name v : string) (b : bytes)
    (created : Z) :
  tagsOf w' path !! "latest"
  = tagsOf (pushed path v (resourceManifest ns name b v created) w) path !! "latest" →
  is_Some (liveLatest w' path).
Proof.
  intros Hl. rewrite (liveLatest_latest _ _ _ Hl), liveLatest_resource. by eexists.
Qed.

(** What [Restore] can set is live. *)
Lemma restorable_live (c : oci.Client) (w : World) (k : string) (b : bytes) :
  restorable c w k = Some b →
  keyOfResource k ∧ liveLatest w (oci.repoPrefix c +:+ "/" +:+ k) = Some b.
Proof.
  unfold restorable, keyOfResource.
  destruct (gostrings.SplitN2 k "/") as [| ns [| name [| ? ?]]] eqn:Hs; try done.
  case_bool_decide; [| done].
  unfold pullOutcome, liveLatest.
  destruct (fails w (NewRepository _)); [done |].
  destruct (fails w (FetchReference _ _)); [done |].
  apply SplitN2_two in Hs as Hk. destruct Hk as [Hk _].
  replace (oci.resourceRepoPath c ns name) with (oci.repoPrefix c +:+ "/" +:+ k)
    by (by rewrite Hk).
  destruct (tagsOf w _ !! "latest") as [m |]; [| done].
  destruct (layers m) as [| l rest]; [done |].
  destruct (fails w (Fetch _)); [done |].
  destruct (String.eqb _ _); [done |].
  intros [= <-]. split; [by eauto | done].
Qed.


Lemma ToKubernetesYAML_outcome (r : model.ResourceRequest) (ns v : string) (w : World) :
  model.ToKubernetesYAML r ns v w =
  (match model.yamlMarshal (platformResource r ns v (clock w (ticks w))) with
   | Some y => Ok (defaulted r, y)
   | None => Err MarshalFailed
   end, setTicks (S (ticks w)) w).
Proof.
  unfold model.ToKubernetesYAML, bind, timeNow, platformResource, defaulted.
  by destruct (model.yamlMarshal _).
Qed.

Lemma Name_defaulted (r : model.ResourceRequest) : model.Name (defaulted r) = model.Name r.
Proof. unfold defaulted. by destruct (_ =? _). Qed.

Lemma keyOfResource_catalogKey (name : string) :
  keyOfResource (api.catalogKey api.defaultNamespace name).
Proof.
  exists api.defaultNamespace, name. apply SplitN2_two. split; [reflexivity |].
  vm_compute. reflexivity.
Qed.

Lemma keyOfResource_not_catalog (c : oci.Client) (k : string) :
  keyOfResource k → oci.repoPrefix c +:+ "/" +:+ k ≠ oci.catalogRepoPath.
Proof.
  intros (ns & name & Hs). apply SplitN2_two in Hs as [-> _].
  apply (resourceRepoPath_not_catalog c ns name).
Qed.

Lemma indexLive_step (c : oci.Client) (s s' : api.State) :
  indexLive c s →
  (∀ k, is_Some (api.resources s' !! k) →
        (is_Some (api.resources s !! k) ∧
         (keyOfResource k →
          tagsOf (api.world s') (oci.repoPrefix c +:+ "/" +:+ k) !! "latest"
          = tagsOf (api.world s) (oci.repoPrefix c +:+ "/" +:+ k) !! "latest")) ∨
        (keyOfResource k ∧
         is_Some (liveLatest (api.world s') (oci.repoPrefix c +:+ "/" +:+ k)))) →
  indexLive c s'.
Proof.
  intros Hinv Hstep k Hk. destruct (Hstep k Hk) as [[Hold Hsame] | Hnew]; [| done].
  destruct (Hinv k Hold) as [Hkey Hlive]. split; [done |].
  by rewrite (liveLatest_latest _ _ _ (Hsame Hkey)).
Qed.

(** What a create leaves behind: [latest] moves for the repository of the
    resource at most; when it moved, it holds a live version; the index is
    as before or has the key of the resource set. *)
Lemma CreateResource_effect (c : oci.Client) (req : model.ResourceRequest)
    (s s' : api.State) (r : Result api.Response) :
  api.CreateResource c req s = (r, s') →
  let path := oci.resourceRepoPath c api.defaultNamespace (model.Name req) in
  let key := api.catalogKey api.defaultNamespace (model.Name req) in
  (∀ p, p ≠ path → p ≠ oci.catalogRepoPath →
        tagsOf (api.world s') p !! "latest" = tagsOf (api.world s) p !! "latest") ∧
  ((api.resources s' = api.resources s ∧
    tagsOf (api.world s') path !! "latest" = tagsOf (api.world s) path !! "latest") ∨
   (is_Some (liveLatest (api.world s') path) ∧
    (api.resources s' = api.resources s ∨
     ∃ y, api.resources s' = <[key := y]> (api.resources s)))).
Proof.
  intros Hrun path key. revert Hrun. unfold api.CreateResource.
  destruct (model.Validate req);
    [intros [= <- <-]; split; [intros; reflexivity | left; split; reflexivity] |].
  unfold bind at 1. unfold attempt at 1, api.liftWorld at 1.
  rewrite ToKubernetesYAML_outcome.
  destruct (model.yamlMarshal _) as [y1 |];
    [| intros [= <- <-]; split; [intros; reflexivity | left; split; reflexivity]].
  unfold bind at 1. unfold attempt at 1, api.liftWorld at 1.
  rewrite Name_defaulted. fold path.
  cbn [api.world api.setWorld].
  pose proof (PushResource_cases c api.defaultNamespace (model.Name req) y1
                (setTicks (S (ticks (api.world s))) (api.world s))) as Hp.
  cbv zeta in Hp. fold path in Hp.
  destruct (oci.PushResource c api.defaultNamespace (model.Name req) y1 _)
    as [[[d v] | e] w2].
  2:{ intros [= <- <-]. cbn [api.world api.setWorld api.resources].
      split; [intros p _ _ | left; split; [done |]];
        by rewrite (pushAborted_latest _ _ _ _ _ _ (versionTag_not_latest _) Hp). }
  destruct Hp as (_ & -> & -> & _).
  unfold bind at 1. unfold attempt at 1, api.liftWorld at 1.
  rewrite ToKubernetesYAML_outcome. cbn [api.world api.setWorld].
  destruct (model.yamlMarshal _) as [y2 |].
  2:{ intros [= <- <-]. cbn [api.world api.setWorld api.resources]. split.
      - intros p Hp _. by rewrite tagsOf_setTicks, pushed_latest_other.
      - right. split; [| by left].
        eapply liveLatest_like_pushed. by rewrite tagsOf_setTicks. }
  unfold bind at 1. unfold api.CatalogManager_Set, modify.
  unfold bind, attempt, ret.
  match goal with |- context [api.PushCatalog c ?mid] =>
    destruct (PushCatalog_frame c mid) as [Hres Hw];
    destruct (api.PushCatalog c mid) as [r' s''] end.
  intros [= <- <-].
  cbn [snd api.world api.resources api.setResources api.setWorld] in *.
  split.
  - intros p Hp Hcat. rewrite (tagsOf_sameResources _ _ _ Hw) by done.
    by rewrite tagsOf_setTicks, pushed_latest_other.
  - right. split; [| right; exists y2; rewrite Hres; unfold key; by rewrite !Name_defaulted].
    eapply liveLatest_like_pushed.
    rewrite (tagsOf_sameResources _ _ _ Hw) by apply resourceRepoPath_not_catalog.
    by rewrite tagsOf_setTicks.
Qed.

(** What a retract leaves behind: the same, with the key deleted when the
    tombstone was pushed. *)
Lemma DeleteResource_effect (c : oci.Client) (name : string)
    (s s' : api.State) (r : Result api.Response) :
  api.DeleteResource c name s = (r, s') →
  let path := oci.resourceRepoPath c api.defaultNamespace name in
  let key := api.catalogKey api.defaultNamespace name in
  (∀ p, p ≠ path → p ≠ oci.catalogRepoPath →
        tagsOf (api.world s') p !! "latest" = tagsOf (api.world s) p !! "latest") ∧
  ((api.resources s' = api.resources s ∧
    tagsOf (api.world s') path !! "latest" = tagsOf (api.world s) path !! "latest") ∨
   api.resources s' = delete key (api.resources s)).
Proof.
  intros Hrun path key. revert Hrun. unfold api.DeleteResource.
  destruct (String.eqb name "");
    [intros [= <- <-]; split; [intros; reflexivity | left; split; reflexivity] |].
  unfold bind at 1. unfold api.CatalogManager_Get, bind at 1, get, ret.
  destruct (api.resources s !! _) as [b |] eqn:Hb;
    [| intros [= <- <-]; split; [intros; reflexivity | left; split; reflexivity]].
  unfold bind at 1. unfold attempt at 1, api.liftWorld.
  pose proof (PushTombstone_cases c api.defaultNamespace name (api.world s)) as Hp.
  cbv zeta in Hp. fold path in Hp.
  destruct (oci.PushTombstone c api.defaultNamespace name (api.world s))
    as [[[d v] | e] w1].
  2:{ intros [= <- <-]. cbn [api.world api.setWorld api.resources].
      split; [intros p _ _ | left; split; [done |]];
        by rewrite (pushAborted_latest _ _ _ _ _ _ (versionTag_not_latest _) Hp). }
  destruct Hp as (_ & -> & -> & _).
  unfold bind at 1. unfold api.CatalogManager_Delete, modify.
  unfold bind, attempt, ret.
  match goal with |- context [api.PushCatalog c ?mid] =>
    destruct (PushCatalog_frame c mid) as [Hres Hw];
    destruct (api.PushCatalog c mid) as [r' s''] end.
  intros [= <- <-].
  cbn [snd api.world api.resources api.setResources api.setWorld] in *.
  split; [| by right].
  intros p Hp Hcat. rewrite (tagsOf_sameResources _ _ _ Hw) by done.
  by rewrite pushed_latest_other.
Qed.

Lemma prefixed_key_inj (c : oci.Client) (k k' : string) :
  oci.repoPrefix c +:+ "/" +:+ k = oci.repoPrefix c +:+ "/" +:+ k' → k = k'.
Proof. intros Heq. by do 2 apply append_inv_head in Heq. Qed.

(** After a start every entry of the index is live. *)
Lemma startup_indexLive (c : oci.Client) (w : World) : indexLive c (api.startup c w).2.
Proof.
  intros k Hk. unfold api.startup in *.
  pose proof (Restore_world c (api.NewCatalogManager w)) as Hw.
  rewrite Restore_lookup in Hk. cbn [api.NewCatalogManager api.world api.resources] in Hk.
  rewrite lookup_empty in Hk.
  destruct (listingFails c w); [by destruct Hk |].
  destruct (restorable c w k) as [b |] eqn:Hr; [| by destruct Hk].
  apply restorable_live in Hr as [Hkey Hlive]. split; [done |].
  rewrite (liveLatest_latest w).
  - rewrite Hlive. by eexists.
  - by rewrite (tagsOf_sameResources _ _ _ Hw) by by apply keyOfResource_not_catalog.
Qed.

Lemma step_indexLive (c : oci.Client) (s s' : api.State) :
  step c s s' → indexLive c s → indexLive c s'.
Proof.
  intros Hstep Hinv. destruct Hstep as [req s | name s | s | s w Hrepos].
  - destruct (api.CreateResource c req s) as [r s'] eqn:Hrun.
    destruct (CreateResource_effect c req s s' r Hrun) as [Hother Hcase].
    cbn [snd]. apply (indexLive_step c s s' Hinv). intros k Hk.
    destruct (decide (k = api.catalogKey api.defaultNamespace (model.Name req)))
      as [-> | Hne].
    + destruct Hcase as [[Hres Hsame] | [Hlive _]].
      * left. rewrite Hres in Hk. split; [done |]. intros _. exact Hsame.
      * right. split; [apply keyOfResource_catalogKey | exact Hlive].
    + left. split.
      * destruct Hcase as [[Hres _] | [_ [Hres | [y Hres]]]]; rewrite Hres in Hk;
          try done.
        by rewrite lookup_insert_ne in Hk.
      * intros Hkey. apply Hother; [| by apply keyOfResource_not_catalog].
        rewrite resourceRepoPath_key. intros Heq. by apply prefixed_key_inj in Heq.
  - destruct (api.DeleteResource c name s) as [r s'] eqn:Hrun.
    destruct (DeleteResource_effect c name s s' r Hrun) as [Hother Hcase].
    cbn [snd]. apply (indexLive_step c s s' Hinv). intros k Hk. left.
    destruct Hcase as [[Hres Hsame] | Hres]; rewrite Hres in Hk.
    + split; [done |]. intros Hkey.
      destruct (decide (k = api.catalogKey api.defaultNamespace name)) as [-> | Hne];
        [exact Hsame |].
      apply Hother; [| by apply keyOfResource_not_catalog].
      rewrite resourceRepoPath_key. intros Heq. by apply prefixed_key_inj in Heq.
    + destruct (decide (k = api.catalogKey api.defaultNamespace name)) as [-> | Hne].
      { rewrite lookup_delete_eq in Hk. by destruct Hk. }
      rewrite lookup_delete_ne in Hk by done. split; [done |]. intros Hkey.
      apply Hother; [| by apply keyOfResource_not_catalog].
      rewrite resourceRepoPath_key. intros Heq. by apply prefixed_key_inj in Heq.
  - apply startup_indexLive.
  - apply (indexLive_step c s _ Hinv). intros k Hk. left. split; [done |].
    intros _. unfold tagsOf. cbn [api.world api.setWorld]. by rewrite Hrepos.
Qed.

Lemma reachable_indexLive (c : oci.Client) (s : api.State) :
  reachable c s → indexLive c s.
Proof.
  intros [w0 Hrtc]. revert s Hrtc. apply (rtc_ind_r (indexLive c)).
  - apply startup_indexLive.
  - intros s1 s2 _ Hstep Hinv. by apply (step_indexLive c s1 s2).
Qed.


End Derivable.




(** ** The handlers, step by step *)

Section HandlerOutcomes.
Context `{!api.Archiver} `{!model.Marshaller}.

Lemma defaulted_idem (r : model.ResourceRequest) : defaulted (defaulted r) = defaulted r.
Proof.
  unfold defaulted. destruct (model.Replicas (model.Spec r) =? 0) eqn:Hz; [done |].
  by rewrite Hz.
Qed.

Lemma platformResource_defaulted (r : model.ResourceRequest) (ns v : string) (now : Z) :
  platformResource (defaulted r) ns v now = platformResource r ns v now.
Proof. unfold platformResource. by rewrite defaulted_idem. Qed.

Lemma CreateResource_outcome (c : oci.Client) (req : model.ResourceRequest) (s : api.State) :
  api.CreateResource c req s = createOutcome c req s.
Proof.
  unfold api.CreateResource, createOutcome.
  destruct (model.Validate req); [done |].
  unfold bind at 1. unfold attempt at 1, api.liftWorld at 1.
  rewrite ToKubernetesYAML_outcome. cbv zeta.
  destruct (model.yamlMarshal _) as [pending |]; [| done].
  unfold bind at 1. unfold attempt at 1, api.liftWorld at 1.
  rewrite Name_defaulted. cbn [api.world api.setWorld].
  destruct (oci.PushResource c api.defaultNamespace (model.Name req) pending _)
    as [[[d version] | e] w2]; [| done].
  unfold bind at 1. unfold attempt at 1, api.liftWorld at 1.
  rewrite ToKubernetesYAML_outcome, platformResource_defaulted.
  cbn [api.world api.setWorld].
  destruct (model.yamlMarshal _) as [final |]; [| done].
  unfold bind at 1. unfold api.CatalogManager_Set, modify.
  unfold bind, attempt, ret.
  rewrite defaulted_idem, Name_defaulted.
  cbn [api.world api.resources api.setResources api.setWorld].
  by destruct (api.PushCatalog c _) as [r s''].
Qed.

Lemma DeleteResource_outcome (c : oci.Client) (name : string) (s : api.State) :
  api.DeleteResource c name s = deleteOutcome c name s.
Proof.
  unfold api.DeleteResource, deleteOutcome.
  destruct (String.eqb name ""); [done |].
  unfold bind at 1. unfold api.CatalogManager_Get, bind at 1, get, ret.
  destruct (api.resources s !! _) as [b |]; [| done].
  unfold bind at 1. unfold attempt at 1, api.liftWorld.
  destruct (oci.PushTombstone c api.defaultNamespace name (api.world s))
    as [[[d v] | e] w1]; [| done].
  unfold bind at 1. unfold api.CatalogManager_Delete, modify.
  unfold bind, attempt, ret.
  cbn [api.world api.resources api.setResources api.setWorld].
  by destruct (api.PushCatalog c _) as [r s''].
Qed.

End HandlerOutcomes.

(** ** Validation and rendering *)

Section Requests.
Context `{!model.Marshaller}.

Lemma member_validTypes (t : string) :
  model.member model.validTypes t = true ↔ t ∈ ["vm"; "database"; "bucket"].
Proof.
  unfold model.member, model.validTypes.
  rewrite !lookup_insert, lookup_singleton. rewrite !elem_of_cons, elem_of_nil.
  repeat case_decide; subst; cbn; naive_solver.
Qed.

Lemma member_validSizes (t : string) :
  model.member model.validSizes t = true ↔ t ∈ ["small"; "medium"; "large"].
Proof.
  unfold model.member, model.validSizes.
  rewrite !lookup_insert, lookup_singleton. rewrite !elem_of_cons, elem_of_nil.
  repeat case_decide; subst; cbn; naive_solver.
Qed.

(** X1. [Validate] accepts a request exactly when its name is not empty,
    its type is vm, database or bucket, its size is small, medium or large,
    and its replica count is at most ten; zero and negative counts pass. *)
Theorem validate_accepts_iff (r : model.ResourceRequest) :
  model.Validate r = None ↔
  model.Name r ≠ "" ∧
  model.Type_ (model.Spec r) ∈ ["vm"; "database"; "bucket"] ∧
  model.Size (model.Spec r) ∈ ["small"; "medium"; "large"] ∧
  model.Replicas (model.Spec r) ≤ 10.
Proof.
  unfold model.Validate.
  rewrite <- member_validTypes, <- member_validSizes.
  destruct (String.eqb_spec (model.Name r) "") as [-> | Hname]; [naive_solver |].
  destruct (model.member model.validTypes _); cbn [negb]; [| naive_solver].
  destruct (model.member model.validSizes _); cbn [negb]; [| naive_solver].
  destruct (Z.gtb_spec (model.Replicas (model.Spec r)) 10); [| naive_solver].
  split; [done |]. intros (_ & _ & _ & Hle). lia.
Qed.

(** X2. For a request that [Validate] accepts, what [ToKubernetesYAML]
    returns keeps the name, has a replica count that is at most ten and never
    zero, turns a count of zero into one and leaves every other count (also a
    negative one) as it is; it reads the clock once and writes nothing to the
    registry. *)
Theorem rendering_defaults_replicas (r r' : model.ResourceRequest) (ns v : string)
    (w w' : World) (y : bytes) :
  model.Validate r = None →
  model.ToKubernetesYAML r ns v w = (Ok (r', y), w') →
  model.Name r' = model.Name r ∧
  model.Replicas (model.Spec r') ≤ 10 ∧
  model.Replicas (model.Spec r') ≠ 0 ∧
  (model.Replicas (model.Spec r) = 0 → model.Replicas (model.Spec r') = 1) ∧
  (model.Replicas (model.Spec r) ≠ 0 → r' = r) ∧
  ticks w' = S (ticks w) ∧ repositories w' = repositories w.
Proof.
  intros Hvalid Hrun. apply validate_accepts_iff in Hvalid as (_ & _ & _ & Hle).
  rewrite ToKubernetesYAML_outcome in Hrun.
  destruct (model.yamlMarshal _); [| done]. injection Hrun as <- _ <-.
  unfold defaulted. destruct (Z.eqb_spec (model.Replicas (model.Spec r)) 0) as [Hz | Hnz].
  - cbn. repeat split; done || lia.
  - repeat split; done || lia.
Qed.

End Requests.

(** ** Create *)

Section Create.
Context `{!api.Archiver} `{!model.Marshaller}.

(** X3. [CreateResource] answers 400 exactly when [Validate] refuses the
    request, and a request that is refused changes nothing: the clock is not
    read, nothing is pushed, the index is as before. *)
Theorem create_rejects_invalid (c : oci.Client) (req : model.ResourceRequest)
    (s : api.State) :
  (∀ why, model.Validate req = Some why →
          api.CreateResource c req s = (Ok (api.writeError 400), s)) ∧
  (∀ resp, (api.CreateResource c req s).1 = Ok resp → api.status resp = 400 →
           is_Some (model.Validate req)).
Proof.
  rewrite CreateResource_outcome. unfold createOutcome. split.
  - intros why Hv. by rewrite Hv.
  - destruct (model.Validate req) as [why |]; [by eexists |]. cbv zeta.
    destruct (model.yamlMarshal _); [| by intros resp [= <-]].
    destruct (oci.PushResource c _ _ _ _) as [[[d version] | e] w2];
      [| by intros resp [= <-]].
    destruct (model.yamlMarshal _); by intros resp [= <-].
Qed.


(** X5. [CreateResource] always answers, with 201, 400 or 500; whenever
    the answer is not 201 the index is as it was before the request. *)
Theorem create_answers_and_keeps_index_on_failure (c : oci.Client)
    (req : model.ResourceRequest) (s : api.State) :
  ∃ resp,
    (api.CreateResource c req s).1 = Ok resp ∧
    (api.status resp = 201 ∨ api.status resp = 400 ∨ api.status resp = 500) ∧
    (api.status resp ≠ 201 →
     api.resources (api.CreateResource c req s).2 = api.resources s).
Proof.
  rewrite CreateResource_outcome. unfold createOutcome.
  destruct (model.Validate req); [eexists; split; [done |]; split; [by auto | done] |].
  cbv zeta.
  destruct (model.yamlMarshal _); [| eexists; split; [done |]; split; [by auto | done]].
  destruct (oci.PushResource c _ _ _ _) as [[[d version] | e] w2];
    [| eexists; split; [done |]; split; [by auto | done]].
  destruct (model.yamlMarshal _); [| eexists; split; [done |]; split; [by auto | done]].
  eexists. split; [done |]. split; [by left | done].
Qed.

End Create.

Section PushSucceeds.

Lemma PushResource_succeeds (c : oci.Client) (ns name : string) (b : bytes) (w : World) :
  fails w (NewRepository (oci.registryHost c +:+ "/" +:+ oci.resourceRepoPath c ns name))
  = false →
  fails w (Copy (oci.resourceRepoPath c ns name) (oci.versionTag (clock w (ticks w))))
  = false →
  fails w (Tag (oci.resourceRepoPath c ns name) "latest") = false →
  oci.PushResource c ns name b w
  = (Ok (DigestOf (resourceManifest ns name b (oci.versionTag (clock w (ticks w)))
                     (clock w (S (ticks w)))),
         oci.versionTag (clock w (ticks w))),
     pushed (oci.resourceRepoPath c ns name) (oci.versionTag (clock w (ticks w)))
       (resourceManifest ns name b (oci.versionTag (clock w (ticks w)))
          (clock w (S (ticks w)))) w).
Proof. intros H1 H2 H3. run_push; try discriminate. reflexivity. Qed.

Lemma PushTombstone_succeeds (c : oci.Client) (ns name : string) (w : World) :
  fails w (NewRepository (oci.registryHost c +:+ "/" +:+ oci.resourceRepoPath c ns name))
  = false →
  fails w (Copy (oci.resourceRepoPath c ns name) (oci.versionTag (clock w (ticks w))))
  = false →
  fails w (Tag (oci.resourceRepoPath c ns name) "latest") = false →
  oci.PushTombstone c ns name w
  = (Ok (DigestOf (tombstoneManifest ns name (oci.versionTag (clock w (ticks w)))
                     (clock w (S (ticks w)))),
         oci.versionTag (clock w (ticks w))),
     pushed (oci.resourceRepoPath c ns name) (oci.versionTag (clock w (ticks w)))
       (tombstoneManifest ns name (oci.versionTag (clock w (ticks w)))
          (clock w (S (ticks w)))) w).
Proof. intros H1 H2 H3. run_push; try discriminate. reflexivity. Qed.

End PushSucceeds.

Section CreateDelete.
Context `{!api.Archiver} `{!model.Marshaller}.

(** X6. When the request is valid, the rendering works and the three
    calls that push the resource go through, [CreateResource] answers 201
    and the resource is in the index, whatever becomes of the upload of the
    catalog: its failure is logged and not reported. *)
Theorem create_succeeds_without_catalog (c : oci.Client) (req : model.ResourceRequest)
    (s : api.State) :
  model.Validate req = None →
  (∀ pr, is_Some (model.yamlMarshal pr)) →
  fails (api.world s)
    (NewRepository (oci.registryHost c +:+ "/" +:+
                    oci.resourceRepoPath c api.defaultNamespace (model.Name req))) = false →
  (∀ tag, fails (api.world s)
            (Copy (oci.resourceRepoPath c api.defaultNamespace (model.Name req)) tag)
          = false) →
  fails (api.world s)
    (Tag (oci.resourceRepoPath c api.defaultNamespace (model.Name req)) "latest") = false →
  ∃ resp,
    (api.CreateResource c req s).1 = Ok resp ∧ api.status resp = 201 ∧
    is_Some (api.resources (api.CreateResource c req s).2
               !! api.catalogKey api.defaultNamespace (model.Name req)).
Proof.
  intros Hvalid Hyaml Hnew Hcopy Htag.
  rewrite CreateResource_outcome. unfold createOutcome. rewrite Hvalid. cbv zeta.
  destruct (Hyaml (platformResource req api.defaultNamespace "pending"
                     (clock (api.world s) (ticks (api.world s))))) as [pending ->].
  rewrite PushResource_succeeds by (done || apply Hcopy).
  match goal with |- context [model.yamlMarshal ?pr] =>
    destruct (Hyaml pr) as [final ->] end.
  match goal with |- context [api.PushCatalog c ?mid] =>
    destruct (PushCatalog_frame c mid) as [Hres _] end.
  eexists. split; [reflexivity |]. split; [reflexivity |].
  cbn [snd]. rewrite Hres. cbn [api.resources]. rewrite lookup_insert_eq. by eexists.
Qed.

(** X7. [DeleteResource] always answers, with 200, 400, 404 or 500;
    whenever the answer is not 200 the index is as it was and [latest] of
    every repository points where it pointed. *)
Theorem delete_answers_and_keeps_state_on_failure (c : oci.Client) (name : string)
    (s : api.State) :
  ∃ resp,
    (api.DeleteResource c name s).1 = Ok resp ∧
    (api.status resp = 200 ∨ api.status resp = 400 ∨ api.status resp = 404 ∨
     api.status resp = 500) ∧
    (api.status resp ≠ 200 →
     api.resources (api.DeleteResource c name s).2 = api.resources s ∧
     ∀ p, tagsOf (api.world (api.DeleteResource c name s).2) p !! "latest"
          = tagsOf (api.world s) p !! "latest").
Proof.
  rewrite DeleteResource_outcome. unfold deleteOutcome.
  destruct (String.eqb name ""); [eexists; split; [done |]; split; [by auto | done] |].
  destruct (api.resources s !! _); [| eexists; split; [done |]; split; [by auto | done]].
  pose proof (PushTombstone_cases c api.defaultNamespace name (api.world s)) as Hp.
  cbv zeta in Hp.
  destruct (oci.PushTombstone c api.defaultNamespace name (api.world s))
    as [[[d v] | e] w1].
  - eexists. split; [done |]. split; [by left | done].
  - eexists. split; [done |]. split; [by auto |]. intros _. split; [done |].
    intros p. cbn [snd api.world api.setWorld].
    by rewrite (pushAborted_latest _ _ _ _ _ p (versionTag_not_latest _) Hp).
Qed.

(** X8. When the name is not empty, its key is in the index and the
    three calls that push the tombstone go through, [DeleteResource] answers
    200, the key leaves the index and the other entries stay, whatever
    becomes of the upload of the catalog. *)
Theorem delete_succeeds_without_catalog (c : oci.Client) (name : string) (s : api.State) :
  name ≠ "" →
  is_Some (api.resources s !! api.catalogKey api.defaultNamespace name) →
  fails (api.world s)
    (NewRepository (oci.registryHost c +:+ "/" +:+
                    oci.resourceRepoPath c api.defaultNamespace name)) = false →
  (∀ tag, fails (api.world s)
            (Copy (oci.resourceRepoPath c api.defaultNamespace name) tag) = false) →
  fails (api.world s)
    (Tag (oci.resourceRepoPath c api.defaultNamespace name) "latest") = false →
  ∃ resp,
    (api.DeleteResource c name s).1 = Ok resp ∧ api.status resp = 200 ∧
    api.resources (api.DeleteResource c name s).2
    = delete (api.catalogKey api.defaultNamespace name) (api.resources s).
Proof.
  intros Hname [b Hb] Hnew Hcopy Htag.
  rewrite DeleteResource_outcome. unfold deleteOutcome.
  apply String.eqb_neq in Hname. rewrite Hname, Hb.
  rewrite PushTombstone_succeeds by (done || apply Hcopy).
  match goal with |- context [api.PushCatalog c ?mid] =>
    destruct (PushCatalog_frame c mid) as [Hres _] end.
  eexists. split; [reflexivity |]. split; [reflexivity |].
  cbn [snd]. by rewrite Hres.
Qed.

End CreateDelete.

Lemma rendering_defaults_replicas_witness :
  model.Name (defaulted demo.web) = model.Name demo.web ∧
  model.Replicas (model.Spec (defaulted demo.web)) ≤ 10 ∧
  model.Replicas (model.Spec (defaulted demo.web)) ≠ 0 ∧
  (model.Replicas (model.Spec demo.web) = 0 →
   model.Replicas (model.Spec (defaulted demo.web)) = 1) ∧
  (model.Replicas (model.Spec demo.web) ≠ 0 → defaulted demo.web = demo.web) ∧
  ticks (setTicks 1 demo.emptyRegistry) = 1%nat ∧
  repositories (setTicks 1 demo.emptyRegistry) = repositories demo.emptyRegistry.
Proof.
  apply (@rendering_defaults_replicas demo.plainYAML demo.web (defaulted demo.web)
           "default" "pending" demo.emptyRegistry (setTicks 1 demo.emptyRegistry)
           (default "" (demo.plainYAML
                          (platformResource demo.web "default" "pending" 1700000000))));
    vm_compute; reflexivity.
Defined.

Lemma create_rejects_invalid_witness :
  @api.CreateResource demo.listing demo.plainYAML demo.client demo.bad
    (api.NewCatalogManager demo.emptyRegistry)
  = (Ok (api.writeError 400), api.NewCatalogManager demo.emptyRegistry).
Proof.
  pose proof (@create_rejects_invalid demo.listing demo.plainYAML demo.client demo.bad
                (api.NewCatalogManager demo.emptyRegistry)) as [Hrefused _].
  apply (Hrefused InvalidType). vm_compute. reflexivity.
Defined.


Lemma create_succeeds_without_catalog_witness :
  let r := @api.CreateResource demo.listing demo.plainYAML demo.client demo.db
             (api.NewCatalogManager demo.catalogDown) in
  (∃ resp, r.1 = Ok resp ∧ api.status resp = 201 ∧
           is_Some (api.resources r.2 !! api.catalogKey api.defaultNamespace "db")) ∧
  tagsOf (api.world r.2) oci.catalogRepoPath !! "latest" = None.
Proof.
  intros r. split.
  - apply (@create_succeeds_without_catalog demo.listing demo.plainYAML demo.client demo.db
             (api.NewCatalogManager demo.catalogDown)).
    + vm_compute. reflexivity.
    + intros pr. by eexists.
    + reflexivity.
    + intros tag. reflexivity.
    + reflexivity.
  - vm_compute. reflexivity.
Defined.

Lemma delete_succeeds_without_catalog_witness :
  ∃ resp,
    demo.retracted.1 = Ok resp ∧ api.status resp = 200 ∧
    api.resources demo.retracted.2
    = delete (api.catalogKey api.defaultNamespace "web") (api.resources demo.created.2).
Proof.
  apply (@delete_succeeds_without_catalog demo.listing demo.client "web" demo.created.2).
  - discriminate.
  - vm_compute. by eexists.
  - vm_compute. reflexivity.
  - intros tag. vm_compute. reflexivity.
  - vm_compute. reflexivity.
Defined.

(** ** Pushes that fail, and the history of versions *)

Section PushHistory.




End PushHistory.

(** ** Pulls *)

Section Pulls.

(** X11. After a successful [PushTombstone], [PullResource] at [latest]
    (when its two requests reach the registry) returns the deletion marker
    ["# deleted: <namespace>/<name>"] and annotations that say
    [deleted=true] and carry the name, the namespace and the version tag. *)
Theorem tombstone_then_pull_latest (c : oci.Client) (ns name : string)
    (w w' : World) (d : digest) (v : string) :
  oci.PushTombstone c ns name w = (Ok (d, v), w') →
  fails w' (FetchReference (oci.resourceRepoPath c ns name) "latest") = false →
  fails w' (Fetch (oci.resourceRepoPath c ns name)) = false →
  ∃ annotations : gmap string string,
    oci.PullResource c ns name "latest" w'
    = (Ok ("# deleted: " +:+ ns +:+ "/" +:+ name +:+ newline, annotations), w') ∧
    annotations !! oci.AnnotationResourceDeleted = Some "true" ∧
    annotations !! oci.AnnotationResourceName = Some name ∧
    annotations !! oci.AnnotationResourceNamespace = Some ns ∧
    annotations !! oci.AnnotationResourceVersion = Some v.
Proof.
  intros Hpush Hf1 Hf2.
  pose proof (PushTombstone_cases c ns name w) as Hp.
  rewrite Hpush in Hp. cbv zeta in Hp. destruct Hp as (_ & -> & -> & Hnew).
  eexists. rewrite PullResource_outcome. unfold pullOutcome.
  change (fails (pushed ?p ?v ?m w)) with (fails w) in *.
  rewrite Hnew, Hf1, pushed_latest. cbn [layers tombstoneManifest].
  rewrite Hf2. split; [reflexivity |].
  unfold oci.mergeAnnotations. cbn [annotations manifestAnnotations data].
  repeat split; apply lookup_union_Some_l; by simplify_map_eq.
Qed.

(** X12. A pull that returns has read the manifest the reference names,
    returns the bytes of its first layer, and merges the annotations so that
    the layer's value wins over the manifest's on a common key; and a pull,
    whether it returns or fails, leaves the registry and the clock as they
    are. *)
Theorem pull_returns_first_layer (c : oci.Client) (ns name reference : string)
    (w : World) :
  (oci.PullResource c ns name reference w).2 = w ∧
  ∀ b a w',
    oci.PullResource c ns name reference w = (Ok (b, a), w') →
    ∃ m layerDesc rest,
      tagsOf w (oci.resourceRepoPath c ns name) !! reference = Some m ∧
      layers m = layerDesc :: rest ∧
      b = data layerDesc ∧
      ∀ k, a !! k = match annotations layerDesc !! k with
                    | Some x => Some x
                    | None => manifestAnnotations m !! k
                    end.
Proof.
  rewrite PullResource_outcome. split; [done |].
  intros b a w'. unfold pullOutcome.
  destruct (fails w (NewRepository _)); [done |].
  destruct (fails w (FetchReference _ _)); [done |].
  destruct (tagsOf w _ !! reference) as [m |]; [| done].
  destruct (layers m) as [| l rest] eqn:Hl; [done |].
  destruct (fails w (Fetch _)); [done |].
  intros [= <- <- _]. exists m, l, rest. repeat split; try done.
  intros k. unfold oci.mergeAnnotations. rewrite lookup_union.
  destruct (annotations l !! k), (manifestAnnotations m !! k); done.
Qed.

(** X13. When the calls reach the registry, a pull of a reference the
    repository does not hold fails with [TagNotFound], and a pull of a
    manifest without layers fails with [NoLayers]; a repository that does not
    exist holds no reference. *)
Theorem pull_errors (c : oci.Client) (ns name reference : string) (w : World) :
  fails w (NewRepository (oci.registryHost c +:+ "/" +:+ oci.resourceRepoPath c ns name))
  = false →
  fails w (FetchReference (oci.resourceRepoPath c ns name) reference) = false →
  (tagsOf w (oci.resourceRepoPath c ns name) !! reference = None →
   oci.PullResource c ns name reference w
   = (Err (TagNotFound (oci.resourceRepoPath c ns name) reference), w)) ∧
  (repositories w !! oci.resourceRepoPath c ns name = None →
   oci.PullResource c ns name reference w
   = (Err (TagNotFound (oci.resourceRepoPath c ns name) reference), w)) ∧
  (∀ m, tagsOf w (oci.resourceRepoPath c ns name) !! reference = Some m →
        layers m = [] →
        oci.PullResource c ns name reference w = (Err NoLayers, w)).
Proof.
  intros Hnew Hfetch.
  assert (tagsOf w (oci.resourceRepoPath c ns name) !! reference = None →
          oci.PullResource c ns name reference w
          = (Err (TagNotFound (oci.resourceRepoPath c ns name) reference), w)) as Hnone.
  { intros Hn. rewrite PullResource_outcome. unfold pullOutcome.
    by rewrite Hnew, Hfetch, Hn. }
  split; [exact Hnone |]. split.
  - intros Hrepo. apply Hnone. unfold tagsOf. by rewrite Hrepo.
  - intros m Hm Hl. rewrite PullResource_outcome. unfold pullOutcome.
    by rewrite Hnew, Hfetch, Hm, Hl.
Qed.

End Pulls.

(** ** Listing the repositories *)

Section Listing.

(** X14. When the listing goes through, [ListResourceRepos] returns, once
    each, the repositories of the registry whose path is the prefix, a
    namespace without separator and a name: such a repository is listed with
    that namespace and name, every listed entry is one, and the catalog
    repository is never among them. *)
Theorem listing_finds_resource_repositories (c : oci.Client) (w : World)
    (repos : list oci.ResourceInfo) :
  oci.ListResourceRepos c w = (Ok repos, w) →
  NoDup repos ∧
  (∀ ns name,
     gostrings.Count ns "/" = 0%nat →
     is_Some (repositories w !! oci.resourceRepoPath c ns name) →
     {| oci.Repository := oci.resourceRepoPath c ns name; oci.Namespace := ns;
        oci.Name := name; oci.Digest := ""; oci.Version := "" |} ∈ repos) ∧
  (∀ info,
     info ∈ repos →
     oci.Repository info = oci.resourceRepoPath c (oci.Namespace info) (oci.Name info) ∧
     gostrings.Count (oci.Namespace info) "/" = 0%nat ∧
     is_Some (repositories w !! oci.Repository info) ∧
     oci.Repository info ≠ oci.catalogRepoPath).
Proof.
  rewrite ListResourceRepos_outcome.
  destruct (fails w (NewRegistry _)); [done |].
  destruct (fails w (Repositories _)); [done |].
  intros [= <-]. rewrite scanRepoNames_omap. cbn [app].
  assert (∀ r info, parseRepo c r = Some info → oci.Repository info = r) as Hrepo.
  { intros r info. unfold parseRepo. destruct (negb _); [done |].
    destruct (gostrings.SplitN2 _ _) as [| p0 [| p1 [| ? ?]]]; try done.
    by intros [= <-]. }
  split; [| split].
  - assert (NoDup (oci.repoNamesOf w)) as Hnd by apply NoDup_fst_map_to_list.
    induction Hnd as [| r names Hr Hnd IH]; [constructor |].
    cbn [omap list_omap]. destruct (parseRepo c r) as [info |] eqn:Hp; [| done].
    constructor; [| done]. intros Hin.
    apply list_elem_of_omap in Hin as (r' & Hr' & Hp').
    apply Hrepo in Hp, Hp'. congruence.
  - intros ns name Hns Hlisted. apply list_elem_of_omap.
    exists (oci.resourceRepoPath c ns name). split; [by apply elem_of_repoNamesOf |].
    rewrite resourceRepoPath_key. apply parseRepo_path.
    apply SplitN2_two. by split.
  - intros info Hin. apply list_elem_of_omap in Hin as (r & Hr & Hp).
    pose proof (Hrepo _ _ Hp) as Hrep.
    apply parseRepo_Some in Hp as [Hpath Hsplit].
    apply SplitN2_two in Hsplit as [_ Hcount].
    apply elem_of_repoNamesOf in Hr. rewrite Hrep.
    split; [by rewrite Hpath |]. split; [done |]. split; [done |].
    rewrite Hpath. apply (resourceRepoPath_not_catalog c (oci.Namespace info) (oci.Name info)).
Qed.

End Listing.

(** ** The catalog repository *)

Section CatalogPush.
Context `{!api.Archiver}.

(** X15. [oci.PushCatalog] writes the tag [latest] of the catalog
    repository and nothing else: every other repository and every other tag
    are as before; when it returns, [latest] holds a manifest whose one layer
    is the archive, of the media type Flux reads, and the digest returned is
    that manifest's; when it fails, no repository has changed. *)
Theorem catalog_push_writes_latest_only (c : oci.Client) (tarGzBytes : bytes) (w : World) :
  (∀ p, p ≠ oci.catalogRepoPath →
        repositories (oci.PushCatalog c tarGzBytes w).2 !! p = repositories w !! p) ∧
  (∀ tag, tag ≠ "latest" →
          tagsOf (oci.PushCatalog c tarGzBytes w).2 oci.catalogRepoPath !! tag
          = tagsOf w oci.catalogRepoPath !! tag) ∧
  (∀ d, (oci.PushCatalog c tarGzBytes w).1 = Ok d →
        ∃ m, d = DigestOf m ∧
             tagsOf (oci.PushCatalog c tarGzBytes w).2 oci.catalogRepoPath !! "latest"
             = Some m ∧
             layerData m = [tarGzBytes] ∧
             mediaType <$> layers m = [oci.MediaTypeFluxContent] ∧
             mediaType (config m) = oci.MediaTypeFluxConfig) ∧
  (∀ e, (oci.PushCatalog c tarGzBytes w).1 = Err e →
        repositories (oci.PushCatalog c tarGzBytes w).2 = repositories w).
Proof.
  rewrite oci_PushCatalog_outcome. unfold pushCatalogOutcome.
  destruct (fails w (NewRepository _)); [by repeat split |].
  destruct (fails w (Copy _ _)); [by repeat split |].
  cbn [fst snd]. split; [| split; [| split]].
  - intros p Hp. cbn [putTag setRepositories repositories]. by rewrite lookup_insert_ne.
  - intros tag Htag. rewrite tagsOf_putTag, decide_True by done.
    by rewrite lookup_insert_ne.
  - intros d [= <-]. eexists. split; [reflexivity |].
    rewrite tagsOf_putTag, decide_True by done. by rewrite lookup_insert_eq.
  - done.
Qed.

Lemma writeManifests_refused (entries : list (string * bytes)) (tw : list api.TarEntry)
    (filenames : list string) (kv : string * bytes) :
  kv ∈ entries →
  api.tarEncodable (api.header (manifestFile kv)) = false →
  ∃ name, api.writeManifests entries tw filenames = Err (TarHeaderFailed name).
Proof.
  revert tw filenames; induction entries as [| [key manifest] entries IH];
    intros tw filenames Hin Hrefused.
  - by apply elem_of_nil in Hin.
  - cbn [api.writeManifests]. unfold api.writeFile.
    match goal with |- context [api.tarEncodable ?hdr] =>
      destruct (api.tarEncodable hdr) eqn:Henc end; [| eexists; reflexivity].
    apply elem_of_cons in Hin as [-> | Hin]; [| by apply IH].
    unfold manifestFile in Hrefused. cbn [api.header fst snd] in Hrefused. congruence.
Qed.

(** X16. [PushCatalog] never changes the index; and when the tar writer
    refuses the header of the file of some entry, it fails with that error
    before any call to the registry: the world is as before, the clock
    included. *)
Theorem catalog_build_failure_pushes_nothing (c : oci.Client) (s : api.State) :
  api.resources (api.PushCatalog c s).2 = api.resources s ∧
  ∀ key manifest,
    api.resources s !! key = Some manifest →
    api.tarEncodable (api.header (manifestFile (key, manifest))) = false →
    ∃ name, api.PushCatalog c s = (Err (TarHeaderFailed name), s).
Proof.
  split; [by destruct (PushCatalog_frame c s) |].
  intros key manifest Hk Hrefused.
  rewrite PushCatalog_outcome. unfold catalogPushOutcome, api.buildCatalogTarGz, api.catalogArchive.
  assert ((key, manifest) ∈ rangeOrder (rangeSeed (api.world s)) (api.resources s)) as Hin.
  { rewrite rangeOrder_Permutation. by apply elem_of_map_to_list. }
  destruct (writeManifests_refused _ [] [] _ Hin Hrefused) as [name ->]. by eexists.
Qed.

Lemma writeManifests_Ok (entries : list (string * bytes)) (tw tw' : list api.TarEntry)
    (filenames filenames' : list string) :
  api.writeManifests entries tw filenames = Ok (tw', filenames') →
  tw' = tw ++ (manifestFile <$> entries) ∧
  filenames' = filenames ++ ((λ kv, api.manifestFilename kv.1) <$> entries).
Proof.
  revert tw filenames; induction entries as [| [key manifest] entries IH];
    intros tw filenames.
  - cbn. intros [= <- <-]. by rewrite !app_nil_r.
  - cbn [api.writeManifests]. unfold api.writeFile.
    destruct (api.tarEncodable _); [| done].
    intros Hrun. apply IH in Hrun as [-> ->].
    cbn [fmap list_fmap]. by rewrite <- !app_assoc.
Qed.

Lemma Count_ReplaceAll (key : string) : gostrings.Count (gostrings.ReplaceAll key "/" "-") "/" = 0%nat.
Proof.
  induction key as [| a key IH]; [done |].
  cbn [gostrings.ReplaceAll gostrings.Count]. rewrite IH.
  destruct (Ascii.eqb_spec a "/"); [done |].
  by destruct (Ascii.eqb_spec a "/").
Qed.

Lemma length_ReplaceAll (key : string) :
  String.length (gostrings.ReplaceAll key "/" "-") = String.length key.
Proof. induction key as [| a key IH]; [done |]. cbn. by rewrite IH. Qed.

(** X17. Whenever the archive is built, its files are those of the
    entries followed by the manifest list; every file lies directly in
    [manifests/] (a key's separators have become hyphens, so its name holds no
    further ['/']), has mode 0644 and a header size equal to the length of its
    content. *)
Theorem catalog_archive_is_flat (order : list (string * bytes)) (tw : list api.TarEntry) :
  api.catalogArchive order = Ok tw →
  List.length tw = S (List.length order) ∧
  (api.hName ∘ api.header <$> tw)
  = ((λ kv, "manifests/" +:+ gostrings.ReplaceAll kv.1 "/" "-" +:+ ".yaml") <$> order)
    ++ ["manifests/kustomization.yaml"] ∧
  ∀ e, e ∈ tw →
       gostrings.HasPrefix (api.hName (api.header e)) "manifests/" = true ∧
       gostrings.Count (api.hName (api.header e)) "/" = 1%nat ∧
       api.hMode (api.header e) = 420 ∧
       api.hSize (api.header e) = Z.of_nat (String.length (api.content e)).
Proof.
  unfold api.catalogArchive.
  destruct (api.writeManifests order [] []) as [[tw0 filenames] | e] eqn:Hw; [| done].
  apply writeManifests_Ok in Hw as [-> ->]. cbn [app].
  unfold api.writeFile. destruct (api.tarEncodable _); [| done].
  intros [= <-]. split; [| split].
  - rewrite length_app, length_fmap. cbn. lia.
  - rewrite fmap_app, <- list_fmap_compose. reflexivity.
  - intros e He. apply elem_of_app in He as [He | He].
    + apply list_elem_of_fmap in He as (kv & -> & _). unfold manifestFile.
      cbn [api.header api.hName api.hMode api.hSize api.content].
      split; [apply HasPrefix_append |]. split; [| done].
      unfold api.manifestFilename. rewrite !Count_append, Count_ReplaceAll.
      vm_compute. reflexivity.
    + apply list_elem_of_singleton in He as ->.
      cbn [api.header api.hName api.hMode api.hSize api.content]. by repeat split.
Qed.

End CatalogPush.

(** ** The index *)

Section Index.

Lemma catalogKey_inj (ns name ns' name' : string) :
  gostrings.Count ns "/" = 0%nat → gostrings.Count ns' "/" = 0%nat →
  api.catalogKey ns name = api.catalogKey ns' name' → ns = ns' ∧ name = name'.
Proof.
  intros Hns Hns' Hkey.
  pose proof (Cut_append ns name "/" Hns) as H1.
  pose proof (Cut_append ns' name' "/" Hns') as H2.
  change (ns +:+ String "/" name) with (api.catalogKey ns name) in H1.
  change (ns' +:+ String "/" name') with (api.catalogKey ns' name') in H2.
  rewrite Hkey, H2 in H1. by injection H1.
Qed.

(** X18. [Get] after [Set] returns the manifest that was set, [Get] after
    [Delete] reports the resource absent, and for namespaces without
    separator a [Set] or [Delete] of one resource does not change what [Get]
    returns for another; none of them touches the world. *)
Theorem index_set_get_delete (ns name : string) (manifest : bytes) (s : api.State) :
  api.CatalogManager_Get ns name (api.CatalogManager_Set ns name manifest s).2
  = (Ok (Some manifest), (api.CatalogManager_Set ns name manifest s).2) ∧
  api.CatalogManager_Get ns name (api.CatalogManager_Delete ns name s).2
  = (Ok None, (api.CatalogManager_Delete ns name s).2) ∧
  api.world (api.CatalogManager_Set ns name manifest s).2 = api.world s ∧
  api.world (api.CatalogManager_Delete ns name s).2 = api.world s ∧
  ∀ ns' name',
    gostrings.Count ns "/" = 0%nat → gostrings.Count ns' "/" = 0%nat →
    (ns', name') ≠ (ns, name) →
    (api.CatalogManager_Get ns' name' (api.CatalogManager_Set ns name manifest s).2).1
    = (api.CatalogManager_Get ns' name' s).1 ∧
    (api.CatalogManager_Get ns' name' (api.CatalogManager_Delete ns name s).2).1
    = (api.CatalogManager_Get ns' name' s).1.
Proof.
  unfold api.CatalogManager_Get, api.CatalogManager_Set, api.CatalogManager_Delete,
    bind, get, ret, modify.
  cbn [fst snd api.resources api.world api.setResources].
  split; [by rewrite lookup_insert_eq |]. split; [by rewrite lookup_delete_eq |].
  split; [done |]. split; [done |].
  intros ns' name' Hns Hns' Hne.
  assert (api.catalogKey ns name ≠ api.catalogKey ns' name') as Hkey.
  { intros Heq. apply catalogKey_inj in Heq as [-> ->]; done. }
  by rewrite lookup_insert_ne, lookup_delete_ne.
Qed.

End Index.

(** ** The read-only handlers *)

Section Readers.
Context `{!api.Archiver} `{!model.Marshaller} `{!model.Unmarshaller}.

Lemma listNames_omap (keys : list string) (acc : list model.ResourceResponse) :
  api.listNames keys acc
  = acc ++ omap (λ key, match gostrings.SplitN2 key "/" with
                        | [_; p1] => Some (api.nameOnly p1)
                        | _ => None
                        end) keys.
Proof.
  revert acc; induction keys as [| key keys IH]; intros acc.
  - cbn. by rewrite app_nil_r.
  - cbn [api.listNames omap list_omap].
    destruct (gostrings.SplitN2 key "/") as [| p0 [| p1 [| ? ?]]]; rewrite IH; try done.
    by rewrite <- app_assoc.
Qed.

Lemma length_omap_le {A B} (f : A → option B) (l : list A) :
  (List.length (omap f l) ≤ List.length l)%nat.
Proof.
  induction l as [| x l IH]; [done |]. cbn [omap list_omap].
  destruct (f x); cbn [List.length]; lia.
Qed.

Lemma length_omap_all {A B} (f : A → option B) (l : list A) :
  (∀ x, x ∈ l → is_Some (f x)) → List.length (omap f l) = List.length l.
Proof.
  induction l as [| x l IH]; intros Hall; [done |]. cbn [omap list_omap].
  destruct (Hall x ltac:(left)) as [y ->]. cbn [List.length].
  rewrite IH; [done |]. intros x' Hx'. apply Hall. by right.
Qed.

(** X19. [ListResources] answers 200 and leaves the state as it is; the
    count it reports is the number of resources it lists, which is at most
    the size of the index and equal to it when every key has the form
    [namespace/name], as is the case in every state the process reaches; a
    name is listed exactly when some key of the index ends with it after its
    first separator. *)
Theorem list_resources_counts_index (s : api.State) :
  ∃ resp : api.ListResponse,
    api.ListResources s = (Ok resp, s) ∧
    api.lStatus resp = 200 ∧
    api.lCount resp = List.length (api.lResources resp) ∧
    (api.lCount resp ≤ size (api.resources s))%nat ∧
    ((∀ k, is_Some (api.resources s !! k) → keyOfResource k) →
     api.lCount resp = size (api.resources s)) ∧
    (∀ c, reachable c s → api.lCount resp = size (api.resources s)) ∧
    (∀ name, api.nameOnly name ∈ api.lResources resp ↔
             ∃ ns, gostrings.Count ns "/" = 0%nat ∧
                   is_Some (api.resources s !! api.catalogKey ns name)).
Proof.
  eexists. unfold api.ListResources, api.CatalogManager_List, bind, get, ret.
  split; [reflexivity |]. cbn [api.lStatus api.lCount api.lResources].
  split; [done |]. split; [done |].
  rewrite listNames_omap. cbn [app].
  set (order := rangeOrder (rangeSeed (api.world s)) (api.resources s)).
  assert (order ≡ₚ map_to_list (api.resources s)) as Hperm by apply rangeOrder_Permutation.
  assert (List.length order.*1 = size (api.resources s)) as Hlen.
  { by rewrite length_fmap, (Permutation_length Hperm), length_map_to_list. }
  assert (∀ k, k ∈ order.*1 ↔ is_Some (api.resources s !! k)) as Hkeys.
  { intros k. rewrite list_elem_of_fmap. split.
    - intros ([k' v] & -> & Hin). rewrite Hperm in Hin.
      apply elem_of_map_to_list in Hin. by eexists.
    - intros [v Hv]. exists (k, v). split; [done |]. rewrite Hperm.
      by apply elem_of_map_to_list. }
  set (split2 := λ key : string, match gostrings.SplitN2 key "/" with
                                 | [_; p1] => Some (api.nameOnly p1)
                                 | _ => None
                                 end).
  assert ((∀ k, is_Some (api.resources s !! k) → keyOfResource k) →
          List.length (omap split2 order.*1) = size (api.resources s)) as Hfull.
  { intros Hall. rewrite <- Hlen. apply length_omap_all.
    intros k Hk. apply Hkeys, Hall in Hk as (ns & name & Hk). unfold split2.
    rewrite Hk. by eexists. }
  split; [| split; [| split]].
  - rewrite <- Hlen. apply length_omap_le.
  - exact Hfull.
  - intros c Hreach. apply Hfull. intros k Hk.
    by destruct (reachable_indexLive c s Hreach k Hk).
  - subst split2. cbv beta. intros name. rewrite list_elem_of_omap. split.
    + intros (k & Hk & Hname). apply Hkeys in Hk.
      destruct (gostrings.SplitN2 k "/") as [| ns [| name' [| ? ?]]] eqn:Hs; try done.
      injection Hname as ->. apply SplitN2_two in Hs as [-> Hns].
      by exists ns.
    + intros (ns & Hns & Hk). exists (api.catalogKey ns name).
      split; [by apply Hkeys |].
      assert (gostrings.SplitN2 (api.catalogKey ns name) "/" = [ns; name]) as ->; [| done].
      apply SplitN2_two. by split.
Qed.

(** X20. [GetResource] leaves the state as it is and answers 400 for an
    empty name, 404 when the key [default/<name>] is not in the index, and
    otherwise 200 with the name and the spec read back from the stored
    manifest (no spec when the manifest cannot be parsed). *)
Theorem get_resource_answers (name : string) (s : api.State) :
  ∃ resp : api.Response,
    api.GetResource name s = (Ok resp, s) ∧
    (name = "" → resp = api.writeError 400) ∧
    (name ≠ "" → api.resources s !! api.catalogKey api.defaultNamespace name = None →
     resp = api.writeError 404) ∧
    (name ≠ "" →
     ∀ data, api.resources s !! api.catalogKey api.defaultNamespace name = Some data →
             api.status resp = 200 ∧
             ∃ body, api.payload resp = Some body ∧
                     model.rName body = name ∧
                     model.rSpec body = model.pSpec <$> model.yamlUnmarshal data).
Proof.
  unfold api.GetResource.
  destruct (String.eqb_spec name "") as [-> | Hname].
  { eexists. split; [reflexivity |]. by repeat split. }
  unfold bind at 1. unfold api.CatalogManager_Get, bind, get, ret.
  destruct (api.resources s !! _) as [data |].
  - eexists. split; [reflexivity |]. split; [done |]. split; [done |].
    intros _ data' [= <-]. split; [done |]. eexists. split; [reflexivity |].
    by destruct (model.yamlUnmarshal data).
  - eexists. split; [reflexivity |]. by repeat split.
Qed.

Lemma CreateResource_201 (c : oci.Client) (req : model.ResourceRequest)
    (s s' : api.State) (resp : api.Response) :
  api.CreateResource c req s = (Ok resp, s') → api.status resp = 201 →
  model.Validate req = None ∧
  is_Some (api.resources s' !! api.catalogKey api.defaultNamespace (model.Name req)).
Proof.
  rewrite CreateResource_outcome. unfold createOutcome.
  destruct (model.Validate req); [by intros [= <- <-] |]. cbv zeta.
  destruct (model.yamlMarshal _); [| by intros [= <- <-]].
  destruct (oci.PushResource c _ _ _ _) as [[[d version] | e] w2]; [| by intros [= <- <-]].
  destruct (model.yamlMarshal _); [| by intros [= <- <-]].
  match goal with |- context [api.PushCatalog c ?mid] =>
    destruct (PushCatalog_frame c mid) as [Hres _] end.
  intros [= <- <-] _. split; [done |]. rewrite Hres. cbn [api.resources].
  rewrite lookup_insert_eq. by eexists.
Qed.

Lemma DeleteResource_200 (c : oci.Client) (name : string)
    (s s' : api.State) (resp : api.Response) :
  api.DeleteResource c name s = (Ok resp, s') → api.status resp = 200 →
  name ≠ "" ∧
  api.resources s' = delete (api.catalogKey api.defaultNamespace name) (api.resources s).
Proof.
  rewrite DeleteResource_outcome. unfold deleteOutcome.
  destruct (String.eqb_spec name ""); [by intros [= <- <-] |].
  destruct (api.resources s !! _); [| by intros [= <- <-]].
  destruct (oci.PushTombstone c _ _ _) as [[[d version] | e] w1]; [| by intros [= <- <-]].
  match goal with |- context [api.PushCatalog c ?mid] =>
    destruct (PushCatalog_frame c mid) as [Hres _] end.
  intros [= <- <-] _. split; [done |]. by rewrite Hres.
Qed.

(** X21. After a create answered 201, [GetResource] for that name answers
    200; after a retract answered 200, it answers 404. *)
Theorem get_follows_create_and_delete (c : oci.Client) :
  (∀ req s s' resp,
     api.CreateResource c req s = (Ok resp, s') → api.status resp = 201 →
     ∃ got, api.GetResource (model.Name req) s' = (Ok got, s') ∧ api.status got = 200) ∧
  (∀ name s s' resp,
     api.DeleteResource c name s = (Ok resp, s') → api.status resp = 200 →
     api.GetResource name s' = (Ok (api.writeError 404), s')).
Proof.
  split.
  - intros req s s' resp Hrun Hok.
    destruct (CreateResource_201 c req s s' resp Hrun Hok) as [Hvalid [data Hdata]].
    assert (model.Name req ≠ "") as Hname.
    { unfold model.Validate in Hvalid. by destruct (String.eqb_spec (model.Name req) ""). }
    unfold api.GetResource. apply String.eqb_neq in Hname. rewrite Hname.
    unfold bind at 1. unfold api.CatalogManager_Get, bind, get, ret. rewrite Hdata.
    eexists. split; reflexivity.
  - intros name s s' resp Hrun Hok.
    destruct (DeleteResource_200 c name s s' resp Hrun Hok) as [Hname Hres].
    unfold api.GetResource. apply String.eqb_neq in Hname. rewrite Hname.
    unfold bind at 1. unfold api.CatalogManager_Get, bind, get, ret.
    by rewrite Hres, lookup_delete_eq.
Qed.

End Readers.

(** ** Restore: failure and overwriting *)

Section RestoreMore.
Context `{!api.Archiver}.

(** X22. When the repositories cannot be listed, [Restore] returns the
    error and changes nothing; the process then starts with an empty index
    and has written nothing to the registry. *)
Theorem restore_listing_failure_changes_nothing (c : oci.Client) :
  (∀ s, listingFails c (api.world s) = true → ∃ e, api.Restore c s = (Err e, s)) ∧
  (∀ w, listingFails c w = true →
        ∃ e, api.startup c w = (Err e, {| api.world := w; api.resources := ∅ |})).
Proof.
  assert (∀ s, listingFails c (api.world s) = true → ∃ e, api.Restore c s = (Err e, s))
    as Hfail.
  { intros s Hl. rewrite Restore_unfold. unfold listingFails in Hl.
    destruct (fails _ (NewRegistry _)); [by eexists |].
    destruct (fails _ (Repositories _)); [by eexists | done]. }
  split; [exact Hfail |]. intros w Hl. apply (Hfail (api.NewCatalogManager w) Hl).
Qed.

(** X23. When the repositories can be listed, [Restore] overwrites: for a
    listed repository [<prefix>/<namespace>/<name>] (namespace without
    separator) whose pull at [latest] returns a manifest that is not marked
    deleted, the index holds the pulled bytes for [namespace/name]
    afterwards, whatever it held before. *)
Theorem restore_overwrites_with_registry_bytes (c : oci.Client) (s : api.State)
    (ns name : string) (manifest : bytes) (annotations : gmap string string) :
  listingFails c (api.world s) = false →
  gostrings.Count ns "/" = 0%nat →
  is_Some (repositories (api.world s) !! oci.resourceRepoPath c ns name) →
  oci.PullResource c ns name "latest" (api.world s)
  = (Ok (manifest, annotations), api.world s) →
  goIndex annotations oci.AnnotationResourceDeleted ≠ "true" →
  api.resources (api.Restore c s).2 !! api.catalogKey ns name = Some manifest.
Proof.
  intros Hl Hns Hlisted Hpull Hlive.
  rewrite Restore_lookup, Hl.
  assert (restorable c (api.world s) (api.catalogKey ns name) = Some manifest) as ->; [| done].
  unfold restorable.
  assert (gostrings.SplitN2 (api.catalogKey ns name) "/" = [ns; name]) as ->
    by (apply SplitN2_two; by split).
  rewrite <- resourceRepoPath_key, bool_decide_true by done.
  rewrite PullResource_outcome in Hpull. injection Hpull as ->.
  apply String.eqb_neq in Hlive. by rewrite Hlive.
Qed.

End RestoreMore.

(** ** What the handlers and [Restore] leave alone *)

Section Frames.
Context `{!api.Archiver} `{!model.Marshaller}.

Lemma PushCatalog_tags (c : oci.Client) (s : api.State) (p tag : string) :
  p ≠ oci.catalogRepoPath ∨ tag ≠ "latest" →
  tagsOf (api.world (api.PushCatalog c s).2) p !! tag = tagsOf (api.world s) p !! tag.
Proof.
  intros Hne. rewrite PushCatalog_outcome. unfold catalogPushOutcome.
  destruct (api.buildCatalogTarGz _ _) as [tarGzBytes | e]; [| done].
  unfold pushCatalogOutcome.
  destruct (fails _ (NewRepository _)); [done |].
  destruct (fails _ (Copy _ _)); [done |].
  cbn [snd api.world api.setWorld]. rewrite tagsOf_putTag.
  case_decide as Hp; [| done]. subst p.
  destruct Hne as [Hne | Hne]; [done |]. by rewrite lookup_insert_ne.
Qed.



(** X25. [Restore] writes nothing but [latest] of the catalog repository:
    every other repository is as before, the other tags of the catalog
    repository too, and the calls that fail are the same. *)
Theorem restore_writes_only_catalog_latest (c : oci.Client) (s : api.State) :
  (∀ p, p ≠ oci.catalogRepoPath →
        repositories (api.world (api.Restore c s).2) !! p = repositories (api.world s) !! p) ∧
  (∀ tag, tag ≠ "latest" →
          tagsOf (api.world (api.Restore c s).2) oci.catalogRepoPath !! tag
          = tagsOf (api.world s) oci.catalogRepoPath !! tag) ∧
  fails (api.world (api.Restore c s).2) = fails (api.world s).
Proof.
  destruct (Restore_world c s) as [Hfails Hrepos].
  split; [exact Hrepos |]. split; [| exact Hfails].
  intros tag Htag. rewrite Restore_unfold.
  destruct (fails _ (NewRegistry _)); [done |].
  destruct (fails _ (Repositories _)); [done |].
  rewrite PushCatalog_tags by (by right). done.
Qed.

End Frames.

(** ** When the catalog is published *)

Section CatalogPublished.
Context `{!api.Archiver}.

Lemma writeManifests_accepted (entries : list (string * bytes)) (tw tw' : list api.TarEntry)
    (filenames filenames' : list string) :
  api.writeManifests entries tw filenames = Ok (tw', filenames') →
  ∀ kv, kv ∈ entries → api.tarEncodable (api.header (manifestFile kv)) = true.
Proof.
  revert tw filenames; induction entries as [| [key manifest] entries IH];
    intros tw filenames Hrun kv Hin.
  - by apply elem_of_nil in Hin.
  - cbn [api.writeManifests] in Hrun. unfold api.writeFile in Hrun.
    match type of Hrun with context [api.tarEncodable ?hdr] =>
      destruct (api.tarEncodable hdr) eqn:Henc end; [| done].
    apply elem_of_cons in Hin as [-> | Hin]; [exact Henc |].
    by apply (IH _ _ Hrun).
Qed.

Lemma catalogArchive_Ok (order : list (string * bytes)) (tw : list api.TarEntry) :
  api.catalogArchive order = Ok tw ↔
  tw = archiveOf order ∧
  ∀ e, e ∈ archiveOf order → api.tarEncodable (api.header e) = true.
Proof.
  unfold api.catalogArchive. split.
  - destruct (api.writeManifests order [] []) as [[tw0 filenames] | e] eqn:Hw; [| done].
    pose proof (writeManifests_accepted _ _ _ _ _ Hw) as Hacc.
    rewrite writeManifests_spec in Hw by exact Hacc. injection Hw as <- <-.
    cbn [app]. unfold api.writeFile. rewrite buildKustomization_text.
    match goal with |- context [api.tarEncodable ?hdr] =>
      destruct (api.tarEncodable hdr) eqn:Henc end; [| done].
    intros [= <-]. split; [done |].
    intros e He. apply elem_of_app in He as [He | He].
    + apply list_elem_of_fmap in He as (kv & -> & Hkv). by apply Hacc.
    + apply list_elem_of_singleton in He as ->. exact Henc.
  - intros [-> Henc]. rewrite writeManifests_spec.
    + cbn [app]. unfold api.writeFile. rewrite buildKustomization_text.
      pose proof (Henc (kustomizationFile ((λ kv, api.manifestFilename kv.1) <$> order))) as He.
      unfold kustomizationFile in He at 2. cbn [api.header] in He.
      rewrite He; [done |]. unfold archiveOf. apply elem_of_app. right. by left.
    + intros kv Hkv. apply Henc. unfold archiveOf. apply elem_of_app. left.
      by apply list_elem_of_fmap_2.
Qed.

(** X26. [PushCatalog] returns without error exactly when the tar writer
    accepts the header of every file of the archive and the two calls of the
    upload go through; [latest] of the catalog repository then holds, as its
    one layer, the compressed archive of the index in the order in which the
    runtime has walked it. *)
Theorem catalog_push_succeeds_iff (c : oci.Client) (s : api.State) :
  let order := rangeOrder (rangeSeed (api.world s)) (api.resources s) in
  (succeeded (api.PushCatalog c s) = true ↔
   (∀ e, e ∈ archiveOf order → api.tarEncodable (api.header e) = true) ∧
   fails (api.world s) (NewRepository (oci.registryHost c +:+ "/" +:+ oci.catalogRepoPath))
   = false ∧
   fails (api.world s) (Copy oci.catalogRepoPath "latest") = false) ∧
  (succeeded (api.PushCatalog c s) = true →
   ∃ m, tagsOf (api.world (api.PushCatalog c s).2) oci.catalogRepoPath !! "latest" = Some m ∧
        layerData m = [api.tarGz (archiveOf order)]).
Proof.
  intros order. rewrite PushCatalog_outcome.
  unfold catalogPushOutcome, api.buildCatalogTarGz. fold order.
  destruct (api.catalogArchive order) as [tw | e] eqn:Harch.
  - apply catalogArchive_Ok in Harch as [-> Henc].
    unfold pushCatalogOutcome.
    destruct (fails _ (NewRepository _)); [by split; [split; [| intros (_ & ? & _)] |] |].
    destruct (fails _ (Copy _ _)); [by split; [split; [| intros (_ & _ & ?)] |] |].
    split; [by split |]. intros _. eexists.
    cbn [snd api.world api.setWorld].
    rewrite tagsOf_putTag, decide_True by done. rewrite lookup_insert_eq.
    split; reflexivity.
  - split; [| done]. split; [done |]. intros (Henc & _ & _).
    assert (api.catalogArchive order = Ok (archiveOf order)) as Hok
      by (by apply catalogArchive_Ok).
    congruence.
Qed.

End CatalogPublished.

(** ** The properties above on the examples *)

Lemma outcome_eta {A S} (r : Result A * S) (x : Result A) : r.1 = x → r = (x, r.2).
Proof. intros <-. by destruct r. Qed.

Lemma pulled_eta {A B} (d : A * B) (r : Result (A * B)) (a : A) :
  fst <$> (match r with Ok x => Some x | Err _ => None end) = Some a →
  r = Ok (a, (valueOr d r).2).
Proof. destruct r as [[a' b] | e]; [| done]. by intros [= <-]. Qed.



Lemma tombstone_then_pull_latest_witness :
  ∃ annotations : gmap string string,
    oci.PullResource demo.client "default" "web" "latest"
      (oci.PushTombstone demo.client "default" "web" demo.emptyRegistry).2
    = (Ok ("# deleted: default/web" +:+ newline, annotations),
       (oci.PushTombstone demo.client "default" "web" demo.emptyRegistry).2) ∧
    annotations !! oci.AnnotationResourceDeleted = Some "true" ∧
    annotations !! oci.AnnotationResourceName = Some "web" ∧
    annotations !! oci.AnnotationResourceNamespace = Some "default" ∧
    annotations !! oci.AnnotationResourceVersion = Some "v1700000000".
Proof.
  apply (tombstone_then_pull_latest demo.client "default" "web" demo.emptyRegistry _
           (DigestOf (tombstoneManifest "default" "web" "v1700000000" 1700000000))
           "v1700000000").
  - apply outcome_eta. vm_compute. reflexivity.
  - reflexivity.
  - reflexivity.
Defined.

Lemma pull_errors_witness :
  oci.PullResource demo.client "default" "web" "latest" demo.emptyRegistry
  = (Err (TagNotFound "gitops-squared/resources/default/web" "latest"), demo.emptyRegistry).
Proof.
  pose proof (pull_errors demo.client "default" "web" "latest" demo.emptyRegistry
                eq_refl eq_refl) as (Habsent & _ & _).
  apply Habsent. reflexivity.
Defined.

Lemma listing_finds_resource_repositories_witness :
  let w := api.world demo.created.2 in
  let web := {| oci.Repository := "gitops-squared/resources/default/web";
                oci.Namespace := "default"; oci.Name := "web";
                oci.Digest := ""; oci.Version := "" |} in
  is_Some (repositories w !! oci.catalogRepoPath) ∧
  oci.ListResourceRepos demo.client w = (Ok [web], w) ∧
  oci.Repository web ≠ oci.catalogRepoPath.
Proof.
  intros w web.
  assert (oci.ListResourceRepos demo.client w = (Ok [web], w)) as Hrun.
  { rewrite ListResourceRepos_outcome. apply (f_equal (λ r, (r, w))).
    vm_compute. reflexivity. }
  split; [apply is_Some_alt; vm_compute; exact I |]. split; [exact Hrun |].
  pose proof (listing_finds_resource_repositories demo.client w [web] Hrun)
    as (_ & _ & Hsound).
  destruct (Hsound web) as (_ & _ & _ & Hne); [by left | exact Hne].
Defined.

Lemma catalog_build_failure_pushes_nothing_witness :
  ∃ name,
    @api.PushCatalog demo.picky demo.client
      {| api.world := demo.emptyRegistry; api.resources := demo.twoEntries |}
    = (Err (TarHeaderFailed name),
       {| api.world := demo.emptyRegistry; api.resources := demo.twoEntries |}).
Proof.
  pose proof (@catalog_build_failure_pushes_nothing demo.picky demo.client
                {| api.world := demo.emptyRegistry; api.resources := demo.twoEntries |})
    as [_ Hrefused].
  apply (Hrefused "default/b" "kind: B"); vm_compute; reflexivity.
Defined.

Lemma catalog_archive_is_flat_witness :
  (api.hName ∘ api.header <$> archiveOf [("team/a/web", "kind: A")])
  = ["manifests/team-a-web.yaml"; "manifests/kustomization.yaml"].
Proof.
  pose proof (@catalog_archive_is_flat demo.listing [("team/a/web", "kind: A")]
                (archiveOf [("team/a/web", "kind: A")])) as Hflat.
  destruct Hflat as (_ & Hnames & _); [vm_compute; reflexivity |].
  rewrite Hnames. reflexivity.
Defined.

Lemma get_follows_create_and_delete_witness :
  (∃ got, @api.GetResource demo.noYAML "web" demo.created.2 = (Ok got, demo.created.2) ∧
          api.status got = 200) ∧
  @api.GetResource demo.noYAML "web" demo.retracted.2
  = (Ok (api.writeError 404), demo.retracted.2).
Proof.
  pose proof (@get_follows_create_and_delete demo.listing demo.plainYAML demo.noYAML
                demo.client) as [Hcreate Hdelete].
  set (resp := valueOr (api.writeError 0) demo.created.1).
  set (resp' := valueOr (api.writeError 0) demo.retracted.1).
  assert (demo.created.1 = Ok resp) as Hrun by (vm_compute; reflexivity).
  assert (demo.retracted.1 = Ok resp') as Hrun' by (vm_compute; reflexivity).
  split.
  - apply (Hcreate demo.web demo.started.2 demo.created.2 resp
             (outcome_eta demo.created _ Hrun)).
    vm_compute. reflexivity.
  - apply (Hdelete "web" demo.created.2 demo.retracted.2 resp'
             (outcome_eta demo.retracted _ Hrun')).
    vm_compute. reflexivity.
Defined.

Lemma restore_listing_failure_changes_nothing_witness :
  ∃ e, @api.startup demo.listing demo.client demo.unreachable
       = (Err e, {| api.world := demo.unreachable; api.resources := ∅ |}).
Proof.
  pose proof (@restore_listing_failure_changes_nothing demo.listing demo.client)
    as [_ Hstart].
  apply Hstart. reflexivity.
Defined.

Lemma restore_overwrites_with_registry_bytes_witness :
  api.resources (@api.Restore demo.listing demo.client demo.created.2).2 !! "default/web"
  = Some demo.pendingYAML ∧
  api.resources demo.created.2 !! "default/web" ≠ Some demo.pendingYAML.
Proof.
  split.
  - apply (@restore_overwrites_with_registry_bytes demo.listing demo.client demo.created.2
             "default" "web" demo.pendingYAML
             (valueOr ("", ∅)
                (pullOutcome demo.client "default" "web" "latest"
                   (api.world demo.created.2))).2).
    + vm_compute. reflexivity.
    + reflexivity.
    + apply is_Some_alt. vm_compute. exact I.
    + rewrite PullResource_outcome.
      apply (f_equal (λ r, (r, api.world demo.created.2))).
      apply pulled_eta. vm_compute. reflexivity.
    + vm_compute. discriminate.
  - intros Heq. apply (f_equal (fmap String.length)) in Heq.
    vm_compute in Heq. discriminate.
Defined.

